(** * The OpenPR MCP regression harness ([scripts/mcp-regression.py])

    A shallow embedding of the harness: the response normalizer [extract],
    the three transport adapters [http_call], [stdio_call] and [sse_call]
    (with its background listener [listen]), the assertion layer [check]
    with its predicates, and the top-level script with its tallies and its
    exit status.

    Python values are the JSON-like values that travel through the script.
    A Python [str] is its sequence of code points.  An exception is a
    value of [exn]; a Python expression that may raise has type [res].
    Everything the script does to the outside (HTTP requests, the child
    process, the clock, the event stream read by the listener thread) goes
    through an interface [Env] over an abstract world. *)

From Stdlib Require Import ZArith NArith List String Ascii Bool Lia.
From Stdlib Require Import Floats Uint63.
Import ListNotations.
Local Open Scope Z_scope.

Set Implicit Arguments.
Set Warnings "-register-all".

(** ** Python strings *)

Module Str.

(** A [str] is a sequence of Unicode code points. *)
Definition pystr := list N.

(** String literals of the script are written in the file as UTF-8 and
    decoded to code points. *)
Fixpoint utf8 (acc : N) (more : nat) (bs : list N) : pystr :=
  match bs with
  | [] => []
  | b :: bs' =>
      match more with
      | S m =>
          let acc' := (acc * 64 + b mod 64)%N in
          match m with
          | O => acc' :: utf8 0 0 bs'
          | S _ => utf8 acc' m bs'
          end
      | O =>
          if (b <? 128)%N then b :: utf8 0 0 bs'
          else if (b <? 224)%N then utf8 (b mod 32)%N 1 bs'
          else if (b <? 240)%N then utf8 (b mod 16)%N 2 bs'
          else utf8 (b mod 8)%N 3 bs'
      end
  end.

Definition u (s : string) : pystr :=
  utf8 0 0 (map N_of_ascii (list_ascii_of_string s)).

Fixpoint eqb (s t : pystr) : bool :=
  match s, t with
  | [], [] => true
  | c :: s', d :: t' => (c =? d)%N && eqb s' t'
  | _, _ => false
  end.

(** [s.startswith(p)] *)
Fixpoint startswith (s p : pystr) : bool :=
  match p, s with
  | [], _ => true
  | d :: p', c :: s' => (c =? d)%N && startswith s' p'
  | _ :: _, [] => false
  end.

(** [p in s] for two strings: [p] occurs in [s] as a substring. *)
Fixpoint contains (s p : pystr) : bool :=
  startswith s p ||
  match s with
  | [] => false
  | _ :: s' => contains s' p
  end.

(** The code points [str.isspace] accepts; [strip()] removes these. *)
Definition isspace (c : N) : bool :=
  ((9 <=? c) && (c <=? 13) || (28 <=? c) && (c <=? 32)
   || (c =? 133) || (c =? 160) || (c =? 5760)
   || (8192 <=? c) && (c <=? 8202)
   || (c =? 8232) || (c =? 8233) || (c =? 8239) || (c =? 8287)
   || (c =? 12288))%N.

Fixpoint lstrip (s : pystr) : pystr :=
  match s with
  | [] => []
  | c :: s' => if isspace c then lstrip s' else s
  end.

Fixpoint rstrip (s : pystr) : pystr :=
  match s with
  | [] => []
  | c :: s' =>
      match rstrip s' with
      | [] => if isspace c then [] else [c]
      | r => c :: r
      end
  end.

(** [s.strip()] *)
Definition strip (s : pystr) : pystr := rstrip (lstrip s).

(** [s.split("\n")]: never empty, [""] for the empty string. *)
Fixpoint split_lines (s : pystr) : list pystr :=
  match s with
  | [] => [[]]
  | c :: s' =>
      if (c =? 10)%N then [] :: split_lines s'
      else match split_lines s' with
           | [] => [[c]]
           | l :: ls => (c :: l) :: ls
           end
  end.

(** Decimal rendering of an [int], as an f-string or [str] gives it. *)
Definition digit (n : N) : N := (48 + n)%N.

Fixpoint digits (fuel : nat) (n : N) (acc : pystr) : pystr :=
  match fuel with
  | O => acc
  | S fuel' =>
      let acc' := digit (n mod 10) :: acc in
      if (n / 10 =? 0)%N then acc' else digits fuel' (n / 10) acc'
  end.

Definition of_N (n : N) : pystr := digits (S (N.to_nat (N.log2 n))) n [].

Definition of_Z (z : Z) : pystr :=
  if z <? 0 then 45%N :: of_N (Z.to_N (- z)) else of_N (Z.to_N z).

End Str.

Abbreviation pystr := Str.pystr.
Abbreviation u := Str.u.

(** ** Values, exceptions and results *)

(** The values the script handles: what [json.loads] produces and what the
    call sites build.  A [dict] keeps its insertion order; a key is looked
    up from the front. *)
Inductive value : Type :=
| VNone
| VBool (b : bool)
| VInt (z : Z)
| VFloat (f : float)
| VStr (s : pystr)
| VList (l : list value)
| VDict (d : list (pystr * value)).

(** Exception classes met in the script.  All of them derive from
    [Exception], so a bare [except:] and [except Exception] catch the same
    ones here; an interrupt delivered from outside the program is not
    modelled. *)
Inductive exn_class : Type :=
| AttributeError | TypeError | KeyError | IndexError | ValueError
| JSONDecodeError | OverflowError | RuntimeError | OSError
| ConnectionError | Timeout | MissingSchema | TimeoutExpired | Empty.

(** [exn_str e] is [str(e)]. *)
Record exn : Type := Exn { exn_cls : exn_class; exn_str : pystr }.

Inductive res (A : Type) : Type :=
| Ok (a : A)
| Raise (e : exn).

Arguments Ok {A} a.
Arguments Raise {A} e.

Definition rbind {A B} (m : res A) (k : A -> res B) : res B :=
  match m with
  | Ok a => k a
  | Raise e => Raise e
  end.

(** [try: m  except: h] *)
Definition try_except {A} (m : res A) (h : res A) : res A :=
  match m with
  | Ok a => Ok a
  | Raise _ => h
  end.

(** [try: m  except Exception as e: h e] *)
Definition try_except_as {A} (m : res A) (h : exn -> res A) : res A :=
  match m with
  | Ok a => Ok a
  | Raise e => h e
  end.

Declare Scope res_scope.
Delimit Scope res_scope with res.
Notation "x <- m ;; k" := (rbind m (fun x => k))
  (at level 61, m at next level, right associativity) : res_scope.

(** ** The Python operations the script applies to values *)

Module Py.

Definition type_name (v : value) : pystr :=
  match v with
  | VNone => u "NoneType"
  | VBool _ => u "bool"
  | VInt _ => u "int"
  | VFloat _ => u "float"
  | VStr _ => u "str"
  | VList _ => u "list"
  | VDict _ => u "dict"
  end.

Definition quoted (s : pystr) : pystr := u "'" ++ s ++ u "'".

(** [bool(v)] *)
Definition truthy (v : value) : bool :=
  match v with
  | VNone => false
  | VBool b => b
  | VInt z => negb (z =? 0)
  | VFloat f => negb (PrimFloat.eqb f 0%float)
  | VStr s => match s with [] => false | _ => true end
  | VList l => match l with [] => false | _ => true end
  | VDict d => match d with [] => false | _ => true end
  end.

Definition isinstance_dict (v : value) : bool :=
  match v with VDict _ => true | _ => false end.

Definition isinstance_str (v : value) : bool :=
  match v with VStr _ => true | _ => false end.

(** [v == 0]: numbers compare by value across [bool], [int] and [float]. *)
Definition eq_zero (v : value) : bool :=
  match v with
  | VInt z => z =? 0
  | VBool b => negb b
  | VFloat f => PrimFloat.eqb f 0%float
  | _ => false
  end.

(** [v == s] for a string [s] *)
Definition eq_str (v : value) (s : pystr) : bool :=
  match v with
  | VStr t => Str.eqb t s
  | _ => false
  end.

Fixpoint lookup (k : pystr) (d : list (pystr * value)) : option value :=
  match d with
  | [] => None
  | (k', v) :: d' => if Str.eqb k' k then Some v else lookup k d'
  end.

(** [v.get(k, default)]: only a [dict] has the method. *)
Definition get (v : value) (k : pystr) (default : value) : res value :=
  match v with
  | VDict d =>
      match lookup k d with
      | Some x => Ok x
      | None => Ok default
      end
  | _ =>
      Raise (Exn AttributeError
               (quoted (type_name v) ++ u " object has no attribute 'get'"))
  end.

Definition not_subscriptable (v : value) : exn :=
  Exn TypeError (quoted (type_name v) ++ u " object is not subscriptable").

(** [v[0]] *)
Definition first (v : value) : res value :=
  match v with
  | VList l =>
      match l with
      | x :: _ => Ok x
      | [] => Raise (Exn IndexError (u "list index out of range"))
      end
  | VStr s =>
      match s with
      | c :: _ => Ok (VStr [c])
      | [] => Raise (Exn IndexError (u "string index out of range"))
      end
  | VDict _ => Raise (Exn KeyError (u "0"))
  | _ => Raise (not_subscriptable v)
  end.

(** [v[k]] for a string key [k] *)
Definition item (v : value) (k : pystr) : res value :=
  match v with
  | VDict d =>
      match lookup k d with
      | Some x => Ok x
      | None => Raise (Exn KeyError (quoted k))
      end
  | VStr _ => Raise (Exn TypeError (u "string indices must be integers, not 'str'"))
  | VList _ =>
      Raise (Exn TypeError (u "list indices must be integers or slices, not str"))
  | _ => Raise (not_subscriptable v)
  end.

(** [k in v] for a string [k]: a key of a [dict], an element of a [list],
    a substring of a [str]. *)
Definition contains (k : pystr) (v : value) : res bool :=
  match v with
  | VDict d => Ok (match lookup k d with Some _ => true | None => false end)
  | VList l => Ok (existsb (fun x => eq_str x k) l)
  | VStr s => Ok (Str.contains s k)
  | _ =>
      Raise (Exn TypeError
               (u "argument of type " ++ quoted (type_name v) ++ u " is not iterable"))
  end.

End Py.

(** ** Library functions taken as given

    The parser and printer of the [json] module, [str()] of a value and
    [str.lower] are Python's own; the harness is verified for whatever
    they compute.  [json.dumps] cannot fail on a [value]: every [value]
    is JSON-serialisable. *)
Record PyLib : Type := {
  json_loads : pystr -> res value;
  json_dumps : value -> pystr;
  py_str : value -> pystr;
  py_lower : pystr -> pystr
}.

(** ** The response normalizer and the predicates *)

Section Normalizer.

Variable L : PyLib.

Local Open Scope res_scope.

(** [json.loads(v)]: a [TypeError] unless [v] is a string. *)
Definition loads (v : value) : res value :=
  match v with
  | VStr s => json_loads L s
  | _ =>
      Raise (Exn TypeError
               (u "the JSON object must be str, bytes or bytearray, not "
                  ++ Py.type_name v))
  end.

Definition extract (resp : value) : res value :=
  if Py.isinstance_dict resp then
    result <- Py.get resp (u "result") (VDict []) ;;
    content <- Py.get result (u "content") (VList []) ;;
    if Py.truthy content then
      c0 <- Py.first content ;;
      has_text <- Py.contains (u "text") c0 ;;
      if has_text then
        try_except
          (c0 <- Py.first content ;; text <- Py.item c0 (u "text") ;; loads text)
          (c0 <- Py.first content ;; Py.item c0 (u "text"))
      else Ok resp
    else Ok resp
  else Ok resp.

(** [isinstance(r, dict) and r.get("code") == 0] *)
Definition is_ok (r : value) : res value :=
  if Py.isinstance_dict r then
    code <- Py.get r (u "code") VNone ;;
    Ok (VBool (Py.eq_zero code))
  else Ok (VBool false).

(** [is_ok(r) and r.get("data", {}).get("id")] *)
Definition has_id (r : value) : res value :=
  ok <- is_ok r ;;
  if Py.truthy ok then
    data <- Py.get r (u "data") (VDict []) ;;
    Py.get data (u "id") VNone
  else Ok ok.

Definition get_id (r : value) : res value :=
  try_except (data <- Py.item r (u "data") ;; Py.item data (u "id")) (Ok VNone).

Definition success_words : list pystr :=
  [u "added"; u "removed"; u "deleted"; u "success"].

(** [is_ok(r) or (isinstance(r, str) and any(w in r.lower() for w in ...))] *)
Definition ok_or_str (r : value) : res value :=
  ok <- is_ok r ;;
  if Py.truthy ok then Ok ok
  else
    match r with
    | VStr s =>
        Ok (VBool (existsb (fun w => Str.contains (py_lower L s) w) success_words))
    | _ => Ok (VBool false)
    end.

(** The three predicates written in place at their call sites. *)

(** [lambda r: isinstance(r, dict)], for [work_items.get_by_identifier] *)
Definition expect_get_by_identifier (r : value) : res value :=
  Ok (VBool (Py.isinstance_dict r)).

(** [lambda r: isinstance(r, dict) and "url" in r], for [files.upload] *)
Definition expect_files_upload (r : value) : res value :=
  if Py.isinstance_dict r then
    b <- Py.contains (u "url") r ;; Ok (VBool b)
  else Ok (VBool false).

(** [lambda r: isinstance(r, dict) and "code" in r], for [proposals.get] *)
Definition expect_proposals_get (r : value) : res value :=
  if Py.isinstance_dict r then
    b <- Py.contains (u "code") r ;; Ok (VBool b)
  else Ok (VBool false).

End Normalizer.

(** ** The outside world *)

(** What [requests.post] returns: only [r.json()] is used. *)
Record Response : Type := { resp_json : res value }.

(** What [subprocess.run] returns: only [proc.stdout] is used. *)
Record CompletedProcess : Type := { proc_stdout : pystr }.

(** The operations on the world.  The last three are the listener
    thread's: opening the stream, the next item of [r.iter_lines()]
    ([None] once the stream has ended or broken, [Some None] for an item
    that is [None]), and [sched t], the number of steps the listener gets
    to take while the main thread is busy or waits for at most [t]
    seconds. *)
Record Env (W : Type) : Type := {
  requests_post : pystr -> value -> W -> res Response * W;
  subprocess_run :
    list pystr -> pystr -> list (pystr * pystr) -> W -> res CompletedProcess * W;
  time_time : W -> float * W;
  time_strftime : pystr -> W -> pystr * W;
  requests_get : pystr -> W -> res unit * W;
  iter_lines : W -> option (option pystr) * W;
  sched : Z -> W -> nat * W
}.

(** ** Computations: state, exceptions, and fuel for the one loop

    A computation runs on a state and yields the state it reached
    together with [Some (Ok a)] when it returned [a], [Some (Raise e)]
    when it raised [e], and [None] when a polling loop was given too
    little fuel.  A raised exception keeps the state reached so far. *)
Definition M (S A : Type) : Type := S -> option (res A) * S.

Definition ret {S A} (a : A) : M S A := fun s => (Some (Ok a), s).

Definition bind {S A B} (m : M S A) (k : A -> M S B) : M S B :=
  fun s =>
    match m s with
    | (Some (Ok a), s') => k a s'
    | (Some (Raise e), s') => (Some (Raise e), s')
    | (None, s') => (None, s')
    end.

Definition lift {S A} (r : res A) : M S A := fun s => (Some r, s).

(** A total operation on the state. *)
Definition op {S A} (f : S -> A * S) : M S A :=
  fun s => let (a, s') := f s in (Some (Ok a), s').

(** An operation that may raise. *)
Definition op_res {S A} (f : S -> res A * S) : M S A :=
  fun s => let (r, s') := f s in (Some r, s').

(** [try: m  except: h] *)
Definition try_ {S A} (m : M S A) (h : M S A) : M S A :=
  fun s =>
    match m s with
    | (Some (Raise _), s') => h s'
    | r => r
    end.

(** [try: m  except Exception as e: h e] *)
Definition try_as {S A} (m : M S A) (h : exn -> M S A) : M S A :=
  fun s =>
    match m s with
    | (Some (Raise e), s') => h e s'
    | r => r
    end.

Declare Scope io_scope.
Delimit Scope io_scope with io.
Notation "x <- m ;; k" := (bind m (fun x => k))
  (at level 61, m at next level, right associativity) : io_scope.
Notation "m ;; k" := (bind m (fun _ => k))
  (at level 61, right associativity) : io_scope.

(** ** Configuration *)

Definition MCP_HTTP : pystr := u "http://localhost:8090".
Definition TOKEN : pystr :=
  u "opr_0a5bc81ea108dad8077decc880abced0d923aa873b9ff774575ec152aecf15d5".
Definition WS : pystr := u "e5166fd1-3bb7-46d9-b907-273b1eef3f44".
Definition PID : pystr := u "adc627bf-15fe-418b-8948-d3c343f9e4f5".
Definition MCP_BIN : pystr := u "/opt/worker/code/openpr/target/release/mcp-server".

(** [args or {}] *)
Definition or_empty (args : value) : value :=
  if Py.truthy args then args else VDict [].

(** The JSON-RPC envelope all three adapters send. *)
Definition envelope (tool : pystr) (args : value) : value :=
  VDict [ (u "jsonrpc", VStr (u "2.0"));
          (u "id", VInt 1);
          (u "method", VStr (u "tools/call"));
          (u "params", VDict [ (u "name", VStr tool);
                               (u "arguments", or_empty args) ]) ].

(** [{"error": msg}] *)
Definition error_result (msg : pystr) : value := VDict [(u "error", VStr msg)].

(** ** The request/response and process adapters *)

Section Adapters.

Variable W : Type.
Variable E : Env W.
Variable L : PyLib.

Local Open Scope io_scope.

Definition http_call (tool : pystr) (args : value) : M W value :=
  try_as
    (r <- op_res (requests_post E (MCP_HTTP ++ u "/mcp/rpc") (envelope tool args)) ;;
     body <- lift (resp_json r) ;;
     lift (extract L body))
    (fun e => ret (error_result (exn_str e))).

Definition stdio_environ : list (pystr * pystr) :=
  [ (u "OPENPR_API_URL", u "http://localhost:3000");
    (u "OPENPR_BOT_TOKEN", TOKEN);
    (u "OPENPR_WORKSPACE_ID", WS);
    (u "PATH", u "/usr/bin:/bin") ].

(** The [for line in ...] loop of [stdio_call]: the first line that, once
    stripped, starts with an opening brace decides the result. *)
Fixpoint scan_lines (lines : list pystr) : res value :=
  match lines with
  | [] => Ok (error_result (u "no JSON output"))
  | line :: rest =>
      let line := Str.strip line in
      if Str.startswith line (u "{") then
        rbind (json_loads L line) (extract L)
      else scan_lines rest
  end.

(** The payload is serialised before the [try] is entered. *)
Definition stdio_call (tool : pystr) (args : value) : M W value :=
  payload <- ret (json_dumps L (envelope tool args)) ;;
  try_as
    (proc <- op_res (subprocess_run E [MCP_BIN; u "--transport"; u "stdio"]
                       payload stdio_environ) ;;
     lift (scan_lines (Str.split_lines (Str.strip (proc_stdout proc)))))
    (fun e => ret (error_result (exn_str e))).

End Adapters.

(** ** The event-stream adapter *)

(** A queued event: [(event_type, data)], where [event_type] may be [None]. *)
Definition event : Type := option pystr * pystr.

(** Where the listener thread is in [listen]: not started, about to open
    the stream, in the [for] loop with its local [event_type], or done. *)
Inductive thread : Type :=
| NotStarted
| Starting
| Reading (event_type : option pystr)
| Finished.

(** The objects one [sse_call] creates: the queue [q], the events [ready]
    and [stop], the thread [t]; and, for the record, the POST requests the
    call has issued (URL and JSON body). *)
Record Session : Type := {
  q : list event;
  ready : bool;
  stop : bool;
  t : thread;
  posted : list (pystr * value)
}.

Definition new_session : Session :=
  {| q := []; ready := false; stop := false; t := NotStarted; posted := [] |}.

(** Assignments to one of them. *)
Definition with_q (x : list event) (c : Session) : Session :=
  {| q := x; ready := ready c; stop := stop c; t := t c; posted := posted c |}.
Definition with_ready (x : bool) (c : Session) : Session :=
  {| q := q c; ready := x; stop := stop c; t := t c; posted := posted c |}.
Definition with_stop (x : bool) (c : Session) : Session :=
  {| q := q c; ready := ready c; stop := x; t := t c; posted := posted c |}.
Definition with_t (x : thread) (c : Session) : Session :=
  {| q := q c; ready := ready c; stop := stop c; t := x; posted := posted c |}.
Definition with_posted (x : list (pystr * value)) (c : Session) : Session :=
  {| q := q c; ready := ready c; stop := stop c; t := t c; posted := x |}.

(** [event_type == s], where [event_type] is [None] or a string *)
Definition type_is (event_type : option pystr) (s : pystr) : bool :=
  match event_type with
  | Some ty => Str.eqb ty s
  | None => false
  end.

Section EventStream.

Variable W : Type.
Variable E : Env W.
Variable L : PyLib.

(** The body of the listener's [for] loop on a line that is not [None],
    after the [stop] test. *)
Definition listen_line (event_type : option pystr) (line : pystr) (c : Session)
  : Session :=
  if Str.startswith line (u "event:") then
    with_t (Reading (Some (Str.strip (skipn 6 line)))) c
  else if Str.startswith line (u "data:") then
    let data := Str.strip (skipn 5 line) in
    let c := with_q (q c ++ [(event_type, data)]) c in
    let c := if type_is event_type (u "endpoint") then with_ready true c else c in
    with_t (Reading None) c
  else if Str.eqb line [] then with_t (Reading None) c
  else c.

(** One step of the listener thread: open the stream, or fetch the next
    line and run the loop body on it.  Any exception ends the thread. *)
Definition listen_step (s : Session * W) : Session * W :=
  let (c, w) := s in
  match t c with
  | NotStarted => s
  | Finished => s
  | Starting =>
      match requests_get E (MCP_HTTP ++ u "/sse") w with
      | (Ok _, w') => (with_t (Reading None) c, w')
      | (Raise _, w') => (with_t Finished c, w')
      end
  | Reading event_type =>
      match iter_lines E w with
      | (None, w') => (with_t Finished c, w')
      | (Some item, w') =>
          if stop c then (with_t Finished c, w')
          else match item with
               | None => (c, w')
               | Some line => (listen_line event_type line c, w')
               end
      end
  end.

(** [listen] for [n] steps. *)
Fixpoint listen (n : nat) (s : Session * W) : Session * W :=
  match n with
  | O => s
  | S n' => listen n' (listen_step s)
  end.

Local Open Scope io_scope.

(** The listener runs while the main thread is busy for up to [timeout]. *)
Definition meanwhile (timeout : Z) : M (Session * W) unit :=
  fun s =>
    let (c, w) := s in
    let (n, w') := sched E timeout w in
    (Some (Ok tt), listen n (c, w')).

(** [t.start()] *)
Definition thread_start : M (Session * W) unit :=
  fun s => (Some (Ok tt), (with_t Starting (fst s), snd s)).

(** [ready.wait(timeout)]: its result is not used. *)
Definition ready_wait (timeout : Z) : M (Session * W) unit := meanwhile timeout.

(** [q.get(timeout)]: the oldest queued event, or [queue.Empty]. *)
Definition q_get (timeout : Z) : M (Session * W) event :=
  meanwhile timeout ;;
  fun s =>
    match q (fst s) with
    | e :: rest => (Some (Ok e), (with_q rest (fst s), snd s))
    | [] => (Some (Raise (Exn Empty [])), s)
    end.

(** [stop.set()] *)
Definition stop_set : M (Session * W) unit :=
  fun s => (Some (Ok tt), (with_stop true (fst s), snd s)).

(** [requests.post(url, json=body, timeout=15)] from the main thread. *)
Definition post (url : pystr) (body : value) : M (Session * W) Response :=
  meanwhile 15 ;;
  fun s =>
    let c := with_posted (posted (fst s) ++ [(url, body)]) (fst s) in
    let (r, w') := requests_post E url body (snd s) in
    (Some r, (c, w')).

(** [time.time()] *)
Definition now : M (Session * W) float :=
  fun s => let (x, w') := time_time E (snd s) in (Some (Ok x), (fst s, w')).

(** Lines 71 to 76: the endpoint to post to. *)
Definition sse_endpoint : M (Session * W) pystr :=
  try_
    (evt <- q_get 3 ;;
     ret (if type_is (fst evt) (u "endpoint") then Str.strip (snd evt)
          else u "/messages"))
    (ret (u "/messages")).

(** Line 79 *)
Definition sse_url (endpoint : pystr) : pystr :=
  if Str.startswith endpoint (u "/") then MCP_HTTP ++ endpoint else endpoint.

(** The [while] loop of lines 84 to 90.  [Some v] is the [return] of
    line 89, [None] is the loop left at its test. *)
Fixpoint poll (fuel : nat) (deadline : float) : M (Session * W) (option value) :=
  match fuel with
  | O => fun s => (None, s)
  | S fuel' =>
      x <- now ;;
      if PrimFloat.ltb x deadline then
        r <- try_
               (evt <- q_get 2 ;;
                if type_is (fst evt) (u "message") then
                  stop_set ;;
                  v <- lift (rbind (json_loads L (snd evt)) (extract L)) ;;
                  ret (Some v)
                else ret None)
               (ret None) ;;
        match r with
        | Some v => ret (Some v)
        | None => poll fuel' deadline
        end
      else ret None
  end.

(** Lines 66 to 83: from starting the listener to the reading of the
    clock that fixes the deadline; the result is that reading. *)
Definition sse_open (tool : pystr) (args : value) : M (Session * W) float :=
  thread_start ;;
  ready_wait 5 ;;
  endpoint <- sse_endpoint ;;
  _ <- post (sse_url endpoint) (envelope tool args) ;;
  now.

Definition timeout_result : value :=
  error_result (u "no SSE response within 10s").

(** The body of the outer [try]. *)
Definition sse_body (fuel : nat) (tool : pystr) (args : value)
  : M (Session * W) value :=
  t0 <- sse_open tool args ;;
  r <- poll fuel (PrimFloat.add t0 10) ;;
  match r with
  | Some v => ret v
  | None =>
      stop_set ;;
      ret timeout_result
  end.

(** [sse_call] on the objects it creates. *)
Definition sse_session (fuel : nat) (tool : pystr) (args : value)
  : M (Session * W) value :=
  try_as (sse_body fuel tool args) (fun e => ret (error_result (exn_str e))).

Definition sse_call (fuel : nat) (tool : pystr) (args : value) : M W value :=
  fun w =>
    let (r, s) := sse_session fuel tool args (new_session, w) in
    (r, snd s).

End EventStream.

(** ** The tallies and the assertion layer *)

(** The module-level counters and the list of failure lines. *)
Record Globals : Type := {
  PASS : Z;
  FAIL : Z;
  SKIP : Z;
  ERRORS : list pystr
}.

Definition globals0 : Globals := {| PASS := 0; FAIL := 0; SKIP := 0; ERRORS := [] |}.

(** The state of the script: its globals, what it has printed (one entry
    per [print]), and the world. *)
Record St (W : Type) : Type := {
  globals : Globals;
  stdout : list pystr;
  world : W
}.

Definition start {W} (w : W) : St W :=
  {| globals := globals0; stdout := []; world := w |}.

Section Assertions.

Variable W : Type.
Variable L : PyLib.

Local Open Scope io_scope.

Definition modify_globals (f : Globals -> Globals) : M (St W) unit :=
  fun s =>
    (Some (Ok tt),
     {| globals := f (globals s); stdout := stdout s; world := world s |}).

Definition read_globals : M (St W) Globals :=
  fun s => (Some (Ok (globals s)), s).

(** [print(line)] *)
Definition print (line : pystr) : M (St W) unit :=
  fun s =>
    (Some (Ok tt),
     {| globals := globals s; stdout := stdout s ++ [line]; world := world s |}).

(** A computation on the world, run from the script. *)
Definition in_world {A} (m : M W A) : M (St W) A :=
  fun s =>
    let (r, w') := m (world s) in
    (r, {| globals := globals s; stdout := stdout s; world := w' |}).

(** [PASS += 1] *)
Definition incr_PASS (g : Globals) : Globals :=
  {| PASS := PASS g + 1; FAIL := FAIL g; SKIP := SKIP g; ERRORS := ERRORS g |}.

(** [FAIL += 1] *)
Definition incr_FAIL (g : Globals) : Globals :=
  {| PASS := PASS g; FAIL := FAIL g + 1; SKIP := SKIP g; ERRORS := ERRORS g |}.

(** [SKIP += n] *)
Definition add_SKIP (n : Z) (g : Globals) : Globals :=
  {| PASS := PASS g; FAIL := FAIL g; SKIP := SKIP g + n; ERRORS := ERRORS g |}.

(** [ERRORS.append(line)] *)
Definition append_ERRORS (line : pystr) (g : Globals) : Globals :=
  {| PASS := PASS g; FAIL := FAIL g; SKIP := SKIP g; ERRORS := ERRORS g ++ [line] |}.

Definition pass_line (proto tool : pystr) : pystr :=
  u "  ✅ [" ++ proto ++ u "] " ++ tool.

Definition fail_line (proto tool s : pystr) : pystr :=
  u "  ❌ [" ++ proto ++ u "] " ++ tool ++ u " → " ++ s.

Definition check (proto tool : pystr) (result : value)
    (expect_fn : value -> res value) : M (St W) value :=
  ok <- try_ (lift (expect_fn result)) (ret (VBool false)) ;;
  (if Py.truthy ok then
     modify_globals incr_PASS ;;
     print (pass_line proto tool)
   else
     modify_globals incr_FAIL ;;
     let s := firstn 140 (py_str L result) in
     modify_globals (append_ERRORS (fail_line proto tool s)) ;;
     print (fail_line proto tool s)) ;;
  ret ok.

End Assertions.

Arguments read_globals W : clear implicits.

(** [sys.exit(1 if FAIL > 0 else 0)] *)
Definition exit_code (g : Globals) : Z := if FAIL g >? 0 then 1 else 0.

(** ** Small library functions the script uses *)

(** [base64.b64encode(bs).decode()] on a byte string *)
Definition b64_char (n : N) : N :=
  (if n <? 26 then 65 + n
   else if n <? 52 then 97 + (n - 26)
   else if n <? 62 then 48 + (n - 52)
   else if n =? 62 then 43 else 47)%N.

Fixpoint b64encode (bs : list N) : pystr :=
  (match bs with
   | [] => []
   | [a] => [b64_char (a / 4); b64_char (a mod 4 * 16); 61; 61]
   | [a; b] =>
       [b64_char (a / 4); b64_char (a mod 4 * 16 + b / 16);
        b64_char (b mod 16 * 4); 61]
   | a :: b :: c :: rest =>
       b64_char (a / 4) :: b64_char (a mod 4 * 16 + b / 16)
         :: b64_char (b mod 16 * 4 + c / 64) :: b64_char (c mod 64)
         :: b64encode rest
   end)%N.

(** [int(x)] for a float: truncation towards zero. *)
Definition py_int (x : float) : res Z :=
  match Prim2SF x with
  | S754_zero _ => Ok 0
  | S754_infinity _ =>
      Raise (Exn OverflowError (u "cannot convert float infinity to integer"))
  | S754_nan => Raise (Exn ValueError (u "cannot convert float NaN to integer"))
  | S754_finite sign m e =>
      let magnitude := Z.shiftl (Z.pos m) e in
      Ok (if sign then - magnitude else magnitude)
  end.

(** [s * n] *)
Fixpoint times (s : pystr) (n : nat) : pystr :=
  match n with
  | O => []
  | S n' => s ++ times s n'
  end.

Definition nl : pystr := [10%N].

(** ** The script

    The top level of the module is a sequence of statements.  [Step m k]
    runs the statement [m] and goes on with [k] applied to what it
    produced; [Exit code] is [sys.exit(code)]. *)
Inductive prog (W : Type) : Type :=
| Exit (code : Z)
| Step (A : Type) (m : M (St W) A) (k : A -> prog W).

Arguments Exit {W} code.
Arguments Step {W A} m k.

Declare Scope prog_scope.
Delimit Scope prog_scope with prog.
Notation "x <- m ;; k" := (Step m (fun x => k))
  (at level 61, m at next level, right associativity) : prog_scope.
Notation "m ;; k" := (Step m (fun _ => k))
  (at level 61, right associativity) : prog_scope.

(** How a run stands: still going, left through [sys.exit], ended by an
    uncaught exception, or stuck in a polling loop without fuel. *)
Inductive status : Type :=
| Running
| Exited (code : Z)
| Crashed (e : exn)
| Starved.

(** The state after at most [n] statements. *)
Fixpoint exec {W} (n : nat) (p : prog W) (s : St W) : status * St W :=
  match p with
  | Exit code => (Exited code, s)
  | Step m k =>
      match n with
      | O => (Running, s)
      | S n' =>
          match m s with
          | (Some (Ok a), s') => exec n' (k a) s'
          | (Some (Raise e), s') => (Crashed e, s')
          | (None, s') => (Starved, s')
          end
      end
  end.

Section Script.

Variable W : Type.
Variable E : Env W.
Variable L : PyLib.

(** A transport adapter, as the script calls it. *)
Definition caller : Type := pystr -> value -> M W value.

(** [CALLERS], in the order the [for] loop goes through it. *)
Definition CALLERS (fuel : nat) : list (pystr * caller) :=
  [ (u "HTTP", http_call E L);
    (u "STDIO", stdio_call E L);
    (u "SSE", sse_call E L fuel) ].

Local Open Scope io_scope.

(** [check(proto, tool, call(tool, args), expect_fn)] *)
Definition check_call (proto : pystr) (call : caller) (tool : pystr)
    (args : value) (expect_fn : value -> res value) : M (St W) value :=
  r <- in_world (call tool args) ;;
  check L proto tool r expect_fn.

Definition skip (n : Z) : M (St W) unit := modify_globals (add_SKIP n).

Definition str_args (kvs : list (pystr * pystr)) : value :=
  VDict (map (fun kv => (fst kv, VStr (snd kv))) kvs).

Local Close Scope io_scope.
Local Open Scope prog_scope.

Definition projects (proto : pystr) (call : caller) (k : prog W) : prog W :=
  print (nl ++ u "📁 Projects (list/get)") ;;
  check_call proto call (u "projects.list") VNone (is_ok) ;;
  check_call proto call (u "projects.get")
    (str_args [(u "project_id", PID)]) is_ok ;;
  k.

Definition work_items_read (proto : pystr) (call : caller) (k : prog W) : prog W :=
  print (nl ++ u "📋 Work Items (读: list/get/search/get_by_identifier)") ;;
  check_call proto call (u "work_items.list")
    (str_args [(u "project_id", PID)]) is_ok ;;
  check_call proto call (u "work_items.get")
    (str_args [(u "work_item_id", u "40b28aac-97d4-4bb7-adbb-f1db6bb763e8")])
    is_ok ;;
  check_call proto call (u "work_items.search")
    (str_args [(u "query", u "test")]) is_ok ;;
  check_call proto call (u "work_items.get_by_identifier")
    (str_args [(u "identifier", u "ADMIN123-1")]) expect_get_by_identifier ;;
  k.

(** Lines 147 to 156, inside [if wi_id:]. *)
Definition comments (proto : pystr) (call : caller) (wi_id : value)
    (k : prog W) : prog W :=
  print (nl ++ u "💬 Comments (create/list/delete)") ;;
  cmt <- in_world (call (u "comments.create")
           (VDict [ (u "work_item_id", wi_id);
                    (u "content", VStr (proto ++ u " final regression comment")) ])) ;;
  check L proto (u "comments.create") cmt has_id ;;
  cmt_id <- lift (get_id cmt) ;;
  check_call proto call (u "comments.list")
    (VDict [(u "work_item_id", wi_id)]) is_ok ;;
  let k :=
    check_call proto call (u "work_items.delete")
      (VDict [(u "work_item_id", wi_id)]) (ok_or_str L) ;;
    k in
  if Py.truthy cmt_id then
    check_call proto call (u "comments.delete")
      (VDict [(u "comment_id", cmt_id)]) (ok_or_str L) ;;
    k
  else
    skip 1 ;;
    k.

Definition work_items_write (proto : pystr) (call : caller) (k : prog W)
  : prog W :=
  print (nl ++ u "📋 Work Items (写: create/update/labels/delete)") ;;
  wi <- in_world (call (u "work_items.create")
          (str_args [ (u "project_id", PID);
                      (u "title", proto ++ u "-final-regtest");
                      (u "priority", u "low");
                      (u "state", u "backlog") ])) ;;
  wi_ok <- check L proto (u "work_items.create") wi has_id ;;
  wi_id <- lift (get_id wi) ;;
  if Py.truthy wi_id then
    check_call proto call (u "work_items.update")
      (VDict [ (u "work_item_id", wi_id);
               (u "state", VStr (u "in_progress"));
               (u "priority", VStr (u "high")) ]) is_ok ;;
    check_call proto call (u "work_items.add_label")
      (VDict [ (u "work_item_id", wi_id);
               (u "label_id", VStr (u "7c466d81-09ea-41d7-8513-b39c710c8330")) ])
      (ok_or_str L) ;;
    check_call proto call (u "work_items.add_labels")
      (VDict [ (u "work_item_id", wi_id);
               (u "label_ids",
                VList [VStr (u "94b44a22-01c9-4cbc-8208-b01fdd1c68a8")]) ])
      (ok_or_str L) ;;
    check_call proto call (u "work_items.list_labels")
      (VDict [(u "work_item_id", wi_id)]) is_ok ;;
    check_call proto call (u "work_items.remove_label")
      (VDict [ (u "work_item_id", wi_id);
               (u "label_id", VStr (u "94b44a22-01c9-4cbc-8208-b01fdd1c68a8")) ])
      (ok_or_str L) ;;
    comments proto call wi_id k
  else
    skip 10 ;;
    print (u "  ⏭️  Skipping write tests (create failed)") ;;
    k.

Definition files (proto : pystr) (call : caller) (k : prog W) : prog W :=
  print (nl ++ u "📎 Files (upload)") ;;
  b64 <- ret (b64encode (u "regression test log content")) ;;
  fup <- in_world (call (u "files.upload")
           (str_args [ (u "filename", proto ++ u "-test.log");
                       (u "content_base64", b64) ])) ;;
  file_ok <- check L proto (u "files.upload") fup expect_files_upload ;;
  k.

Definition labels (proto : pystr) (call : caller) (k : prog W) : prog W :=
  print (nl ++ u "🏷️ Labels (list/list_by_project/create/update/delete)") ;;
  check_call proto call (u "labels.list") VNone is_ok ;;
  check_call proto call (u "labels.list_by_project")
    (str_args [(u "project_id", PID)]) is_ok ;;
  ts <- (bind (in_world (op (time_time E)))
           (fun x => bind (lift (py_int x)) (fun i => ret (i mod 100000)))) ;;
  lbl <- in_world (call (u "labels.create")
           (str_args [ (u "name", proto ++ u "-final-" ++ Str.of_Z ts);
                       (u "color", u "#cc5500") ])) ;;
  check L proto (u "labels.create") lbl has_id ;;
  lbl_id <- lift (get_id lbl) ;;
  if Py.truthy lbl_id then
    check_call proto call (u "labels.update")
      (VDict [ (u "label_id", lbl_id);
               (u "name", VStr (proto ++ u "-upd-" ++ Str.of_Z ts)) ]) is_ok ;;
    check_call proto call (u "labels.delete")
      (VDict [(u "label_id", lbl_id)]) (ok_or_str L) ;;
    k
  else
    skip 2 ;;
    k.

Definition members (proto : pystr) (call : caller) (k : prog W) : prog W :=
  print (nl ++ u "👥 Members (list)") ;;
  check_call proto call (u "members.list") VNone is_ok ;;
  k.

Definition sprints (proto : pystr) (call : caller) (k : prog W) : prog W :=
  print (nl ++ u "🏃 Sprints (list/create/update/delete)") ;;
  check_call proto call (u "sprints.list")
    (str_args [(u "project_id", PID)]) is_ok ;;
  spr <- in_world (call (u "sprints.create")
           (str_args [ (u "project_id", PID);
                       (u "name", proto ++ u "-final-spr");
                       (u "start_date", u "2026-04-01");
                       (u "end_date", u "2026-04-14") ])) ;;
  check L proto (u "sprints.create") spr has_id ;;
  spr_id <- lift (get_id spr) ;;
  if Py.truthy spr_id then
    check_call proto call (u "sprints.update")
      (VDict [ (u "sprint_id", spr_id);
               (u "name", VStr (proto ++ u "-spr-final-upd")) ]) is_ok ;;
    check_call proto call (u "sprints.delete")
      (VDict [(u "sprint_id", spr_id)]) (ok_or_str L) ;;
    k
  else
    skip 2 ;;
    k.

Definition proposals (proto : pystr) (call : caller) (k : prog W) : prog W :=
  print (nl ++ u "📝 Proposals (list/get)") ;;
  check_call proto call (u "proposals.list")
    (str_args [(u "project_id", PID)]) is_ok ;;
  check_call proto call (u "proposals.get")
    (str_args [(u "proposal_id", u "PROP-053d48a2-1b85-409a-9b65-2a99281cbcef")])
    expect_proposals_get ;;
  k.

Definition search (proto : pystr) (call : caller) (k : prog W) : prog W :=
  print (nl ++ u "🔍 Search (all)") ;;
  check_call proto call (u "search.all")
    (str_args [(u "query", u "test")]) is_ok ;;
  k.

(** The body of [for proto, call in CALLERS.items()]. *)
Definition for_body (proto : pystr) (call : caller) (k : prog W) : prog W :=
  print (nl ++ times (u "━") 50 ++ nl ++ u "  协议: " ++ proto ++ nl
            ++ times (u "━") 50) ;;
  projects proto call
    (work_items_read proto call
       (work_items_write proto call
          (files proto call
             (labels proto call
                (members proto call
                   (sprints proto call
                      (proposals proto call
                         (search proto call k)))))))).

(** [PASS*100//(PASS+FAIL) if (PASS+FAIL) else 0] *)
Definition pass_rate (g : Globals) : Z :=
  if PASS g + FAIL g =? 0 then 0 else PASS g * 100 / (PASS g + FAIL g).

Definition print_each (lines : list pystr) : M (St W) unit :=
  fold_right (fun e m => bind (print e) (fun _ => m)) (ret tt) lines.

(** Lines 204 to 216. *)
Definition summary : prog W :=
  total_per_proto <- bind (read_globals W) (fun g => ret (PASS g + FAIL g)) ;;
  print (nl ++ times (u "=") 60) ;;
  print (u "  最终测试结果") ;;
  print (times (u "=") 60) ;;
  bind (read_globals W) (fun g => print (u "  ✅ 通过: " ++ Str.of_Z (PASS g))) ;;
  bind (read_globals W) (fun g => print (u "  ❌ 失败: " ++ Str.of_Z (FAIL g))) ;;
  bind (read_globals W) (fun g => print (u "  ⏭️  跳过: " ++ Str.of_Z (SKIP g))) ;;
  bind (read_globals W)
    (fun g => print (u "  📊 通过率: " ++ Str.of_Z (pass_rate g) ++ u "%")) ;;
  errors <- bind (read_globals W) (fun g => ret (ERRORS g)) ;;
  let finish :=
    print (times (u "=") 60) ;;
    code <- bind (read_globals W) (fun g => ret (exit_code g)) ;;
    Exit code in
  match errors with
  | [] => finish
  | _ :: _ =>
      print (nl ++ u "  失败详情:") ;;
      bind (read_globals W) (fun g => print_each (ERRORS g)) ;;
      finish
  end.

(** The whole module from line 115 on. *)
Definition main (fuel : nat) : prog W :=
  print (times (u "=") 60) ;;
  print (u "  OpenPR MCP 完整回归测试 (34工具 × 3协议)") ;;
  bind (in_world (op (time_strftime E (u "%Y-%m-%d %H:%M:%S"))))
    (fun stamp => print (u "  " ++ stamp)) ;;
  print (times (u "=") 60) ;;
  fold_right (fun pc k => for_body (fst pc) (snd pc) k) summary (CALLERS fuel).

End Script.

(** ** A simulated world, for running the harness on examples

    The library functions are instantiated by a reader and printers for the
    part of JSON the examples use (null, booleans, integers, strings,
    arrays, objects); the world is a script of what the
    server, the child process and the event stream will answer. *)

Module Sim.

Definition is_ws (c : N) : bool := ((c =? 32) || (c =? 9) || (c =? 10) || (c =? 13))%N.

Fixpoint ws (s : pystr) : pystr :=
  match s with
  | c :: s' => if is_ws c then ws s' else s
  | [] => []
  end.

Definition is_digit (c : N) : bool := ((48 <=? c) && (c <=? 57))%N.

Fixpoint read_digits (s : pystr) (acc : Z) : Z * pystr :=
  match s with
  | c :: s' =>
      if is_digit c then read_digits s' (acc * 10 + Z.of_N (c - 48)) else (acc, s)
  | [] => (acc, [])
  end.

(** The characters up to the closing quote; a backslash makes the next
    character stand for itself, or for a newline or a tab. *)
Fixpoint read_string (s : pystr) : option (pystr * pystr) :=
  match s with
  | [] => None
  | c :: s' =>
      if (c =? 34)%N then Some ([], s')
      else if (c =? 92)%N then
        match s' with
        | d :: s'' =>
            let d' := if (d =? 110)%N then 10%N
                      else if (d =? 116)%N then 9%N else d in
            match read_string s'' with
            | Some (str, rest) => Some (d' :: str, rest)
            | None => None
            end
        | [] => None
        end
      else match read_string s' with
           | Some (str, rest) => Some (c :: str, rest)
           | None => None
           end
  end.

Fixpoint parse (fuel : nat) (s : pystr) : option (value * pystr) :=
  match fuel with
  | O => None
  | S fuel' =>
      let elements :=
        fix elements (n : nat) (s : pystr) (acc : list value) :=
          match n with
          | O => None
          | S n' =>
              match parse fuel' s with
              | Some (v, rest) =>
                  match ws rest with
                  | 44%N :: rest' => elements n' rest' (acc ++ [v])
                  | 93%N :: rest' => Some (VList (acc ++ [v]), rest')
                  | _ => None
                  end
              | None => None
              end
          end in
      let members :=
        fix members (n : nat) (s : pystr) (acc : list (pystr * value)) :=
          match n with
          | O => None
          | S n' =>
              match ws s with
              | 34%N :: s1 =>
                  match read_string s1 with
                  | Some (key, s2) =>
                      match ws s2 with
                      | 58%N :: s3 =>
                          match parse fuel' s3 with
                          | Some (v, rest) =>
                              match ws rest with
                              | 44%N :: rest' => members n' rest' (acc ++ [(key, v)])
                              | 125%N :: rest' => Some (VDict (acc ++ [(key, v)]), rest')
                              | _ => None
                              end
                          | None => None
                          end
                      | _ => None
                      end
                  | None => None
                  end
              | _ => None
              end
          end in
      match ws s with
      | 110%N :: 117%N :: 108%N :: 108%N :: rest => Some (VNone, rest)
      | 116%N :: 114%N :: 117%N :: 101%N :: rest => Some (VBool true, rest)
      | 102%N :: 97%N :: 108%N :: 115%N :: 101%N :: rest => Some (VBool false, rest)
      | 34%N :: rest =>
          match read_string rest with
          | Some (str, rest') => Some (VStr str, rest')
          | None => None
          end
      | 91%N :: rest =>
          match ws rest with
          | 93%N :: rest' => Some (VList [], rest')
          | _ => elements fuel' rest []
          end
      | 123%N :: rest =>
          match ws rest with
          | 125%N :: rest' => Some (VDict [], rest')
          | _ => members fuel' rest []
          end
      | 45%N :: c :: rest =>
          if is_digit c then
            let (n, rest') := read_digits (c :: rest) 0 in Some (VInt (- n), rest')
          else None
      | c :: rest =>
          if is_digit c then
            let (n, rest') := read_digits (c :: rest) 0 in Some (VInt n, rest')
          else None
      | [] => None
      end
  end.

Definition loads (s : pystr) : res value :=
  match parse (S (List.length s)) s with
  | Some (v, rest) =>
      match ws rest with
      | [] => Ok v
      | _ => Raise (Exn JSONDecodeError (u "Extra data"))
      end
  | None => Raise (Exn JSONDecodeError (u "Expecting value"))
  end.

Definition join (sep : pystr) (parts : list pystr) : pystr :=
  match parts with
  | [] => []
  | p :: ps => p ++ flat_map (fun x => sep ++ x) ps
  end.

(** A printer: [q] is the quote put around strings. *)
Fixpoint render (q : pystr) (none true false : pystr) (v : value) : pystr :=
  match v with
  | VNone => none
  | VBool b => if b then true else false
  | VInt z => Str.of_Z z
  | VFloat _ => u "0.0"
  | VStr s => q ++ s ++ q
  | VList l => u "[" ++ join (u ", ") (map (render q none true false) l) ++ u "]"
  | VDict d =>
      u "{"
        ++ join (u ", ")
             (map (fun kv => q ++ fst kv ++ q ++ u ": "
                               ++ render q none true false (snd kv)) d)
        ++ u "}"
  end.

Definition dumps (v : value) : pystr :=
  render [34%N] (u "null") (u "true") (u "false") v.

Definition str (v : value) : pystr :=
  match v with
  | VStr s => s
  | _ => render (u "'") (u "None") (u "True") (u "False") v
  end.

Definition lower (s : pystr) : pystr :=
  map (fun c => if ((65 <=? c) && (c <=? 90))%N then (c + 32)%N else c) s.

Definition lib : PyLib :=
  {| json_loads := loads; json_dumps := dumps; py_str := str; py_lower := lower |}.

(** The scripted world: the clock in seconds, the answers still to come
    to POST requests and to runs of the child process, and the lines the
    event stream has yet to deliver. *)
Record World : Type := {
  clock : Z;
  http : list (res Response);
  proc : list (res CompletedProcess);
  stream : list (option pystr)
}.

Definition refused : exn := Exn ConnectionError (u "Connection refused").

Definition sim_post (url : pystr) (body : value) (w : World) : res Response * World :=
  match http w with
  | r :: rest =>
      (r, {| clock := clock w; http := rest; proc := proc w; stream := stream w |})
  | [] => (Raise refused, w)
  end.

Definition sim_run (argv : list pystr) (input : pystr) (env : list (pystr * pystr))
    (w : World) : res CompletedProcess * World :=
  match proc w with
  | r :: rest =>
      (r, {| clock := clock w; http := http w; proc := rest; stream := stream w |})
  | [] => (Raise (Exn OSError (u "No such file or directory")), w)
  end.

(** The simulation covers the seconds before [horizon]; a clock read
    later than that is past every deadline. *)
Definition horizon : Z := 2000.

(** Every reading of the clock is three seconds after the one before. *)
Definition sim_time (w : World) : float * World :=
  (if clock w <? horizon then PrimFloat.of_uint63 (Uint63.of_Z (clock w))
   else PrimFloat.infinity,
   {| clock := clock w + 3; http := http w; proc := proc w; stream := stream w |}).

Definition sim_strftime (fmt : pystr) (w : World) : pystr * World :=
  (u "2026-04-01 12:00:00", w).

Definition sim_get (url : pystr) (w : World) : res unit * World := (Ok tt, w).

Definition sim_lines (w : World) : option (option pystr) * World :=
  match stream w with
  | l :: rest =>
      (Some l, {| clock := clock w; http := http w; proc := proc w; stream := rest |})
  | [] => (None, w)
  end.

(** The listener gets three steps in whenever the main thread waits. *)
Definition sim_sched (timeout : Z) (w : World) : nat * World := (3%nat, w).

Definition env : Env World :=
  {| requests_post := sim_post;
     subprocess_run := sim_run;
     time_time := sim_time;
     time_strftime := sim_strftime;
     requests_get := sim_get;
     iter_lines := sim_lines;
     sched := sim_sched |}.

(** The same world, except that the event stream goes on for ever with
    keep-alive comment lines and never carries an event. *)
Definition sim_keepalive (w : World) : option (option pystr) * World :=
  (Some (Some (u ": keep-alive")), w).

Definition env_quiet : Env World :=
  {| requests_post := sim_post;
     subprocess_run := sim_run;
     time_time := sim_time;
     time_strftime := sim_strftime;
     requests_get := sim_get;
     iter_lines := sim_keepalive;
     sched := sim_sched |}.

(** JSON text, written with ['] for the double quote. *)
Definition json (s : string) : pystr :=
  map (fun c => if (c =? 39)%N then 34%N else c) (u s).

(** A world in which nothing answers. *)
Definition silent : World := {| clock := 1000; http := []; proc := []; stream := [] |}.

End Sim.

(** ** Vocabulary of the statements below *)

(** What [check] makes of a predicate on a result: an exception counts
    as [False], anything else by its truth value. *)
Definition accepts (expect_fn : value -> res value) (r : value) : bool :=
  match expect_fn r with
  | Ok ok => Py.truthy ok
  | Raise _ => false
  end.

(** [k in r] holds. *)
Definition has_key (k : pystr) (r : value) : Prop :=
  match r with
  | VDict d => Py.lookup k d <> None
  | _ => False
  end.

(** The predicates the harness passes to [check]. *)
Definition predicates (L : PyLib) : list (value -> res value) :=
  [ is_ok; has_id; ok_or_str L;
    expect_get_by_identifier; expect_files_upload; expect_proposals_get ].

(** A computation keeps [I]: from a state in [I] it ends in [I], whatever
    its outcome. *)
Definition keeps {S A} (I : S -> Prop) (m : M S A) : Prop :=
  forall s, I s -> I (snd (m s)).

(** Every queued event carries data that [strip] leaves as it is. *)
Definition stripped (c : Session) : Prop :=
  Forall (fun e : event => Str.strip (snd e) = snd e) (q c).


Section StreamVocabulary.

Variable W : Type.
Variable E : Env W.



(** The state of a call in world [w] once [ready.wait] has returned. *)
Definition connected (w : W) : Session * W :=
  snd (bind (@thread_start W) (fun _ => ready_wait E 5) (new_session, w)).

(** The outcome of [q.get(timeout=3)], the first dequeue of the call: an
    event, or [queue.Empty]. *)
Definition first_dequeued (w : W) : option (res event) :=
  fst (q_get E 3 (connected w)).

(** The endpoint that outcome stands for. *)
Definition endpoint_of (first : option (res event)) : pystr :=
  match first with
  | Some (Ok (event_type, data)) =>
      if type_is event_type (u "endpoint") then data else u "/messages"
  | _ => u "/messages"
  end.


End StreamVocabulary.

(** ** Example worlds *)

(** A stream that announces an absolute URL as its endpoint. *)
Definition elsewhere : Sim.World :=
  {| Sim.clock := 1000;
     Sim.http := [];
     Sim.proc := [];
     Sim.stream := [ Some (u "event: endpoint");
                     Some (u "data: http://127.0.0.1:9/rpc") ] |}.

(** A server that refuses the POST. *)
Definition refusing : Sim.World :=
  {| Sim.clock := 1000; Sim.http := []; Sim.proc := []; Sim.stream := [] |}.

(** A server that accepts the POST and then never answers on the stream. *)
Definition unanswered : Sim.World :=
  {| Sim.clock := 1000;
     Sim.http := [Ok {| resp_json := Ok VNone |}];
     Sim.proc := [];
     Sim.stream := [] |}.

(** A server that announces the endpoint "/custom", accepts the POST and
    answers on the stream with a "message" event. *)
Definition answered : Sim.World :=
  {| Sim.clock := 1000;
     Sim.http := [Ok {| resp_json := Ok VNone |}];
     Sim.proc := [];
     Sim.stream :=
       [ Some (u "event: endpoint");
         Some (u "data: /custom");
         Some [];
         Some (u "event: message");
         Some (Sim.json "data: {'result': {'content': [{'type': 'text', 'text': '{\'code\': 0}'}]}}");
         Some [] ] |}.

(** An answer every predicate of the script accepts. *)
Definition well : value :=
  VDict [ (u "code", VInt 0);
          (u "data", VDict [(u "id", VStr (u "7"))]);
          (u "url", VStr (u "/files/7")) ].

(** A server that gives that answer to every call, on all three
    transports. *)
Definition all_well : Sim.World :=
  {| Sim.clock := 0;
     Sim.http := repeat (Ok {| resp_json := Ok well |}) 100;
     Sim.proc := repeat (Ok {| proc_stdout := Sim.dumps well |}) 40;
     Sim.stream :=
       List.concat (repeat [ Some (u "event: message");
                             Some (u "data: " ++ Sim.dumps well) ] 300) |}.


(** ** The tallies along a run *)

(** [ERRORS] has one line per failure counted. *)
Definition tallied (g : Globals) : Prop :=
  Z.of_nat (List.length (ERRORS g)) = FAIL g.

(** What one statement may do to [FAIL] and [ERRORS]: nothing, or count a
    failure and append its line. *)
Definition tally_step (g g' : Globals) : Prop :=
  (FAIL g' = FAIL g /\ ERRORS g' = ERRORS g)
  \/ (FAIL g' = FAIL g + 1 /\ exists line, ERRORS g' = ERRORS g ++ [line]).

(** A statement that leaves [FAIL] and [ERRORS] as they are. *)
Definition unchanged {W A} (m : M (St W) A) : Prop :=
  forall s,
    FAIL (globals (snd (m s))) = FAIL (globals s)
    /\ ERRORS (globals (snd (m s))) = ERRORS (globals s).

(** A statement that changes [FAIL] and [ERRORS] by one [tally_step]. *)
Definition counts {W A} (m : M (St W) A) : Prop :=
  forall s, tally_step (globals s) (globals (snd (m s))).

(** A program logic for the script: [sound P p] when, started in a state
    of [P], every statement of [p] relates the states before and after it
    by [T] and ends in [I], an exit with [code] happens in a state of
    [Q code], and a statement that raises [e] does so in a state of
    [C e]. *)
Section Logic.

Variable W : Type.
Variable I : St W -> Prop.
Variable T : St W -> St W -> Prop.
Variable Q : Z -> St W -> Prop.
Variable C : exn -> St W -> Prop.

Inductive sound : (St W -> Prop) -> prog W -> Prop :=
| sound_exit (P : St W -> Prop) (code : Z) :
    (forall s, P s -> I s /\ Q code s) ->
    sound P (Exit code)
| sound_step (P : St W -> Prop) (A : Type) (m : M (St W) A) (k : A -> prog W)
    (R : A -> St W -> Prop) :
    (forall s, P s -> I s) ->
    (forall s, P s ->
       T s (snd (m s)) /\ I (snd (m s))
       /\ match fst (m s) with
          | Some (Ok a) => R a (snd (m s))
          | Some (Raise e) => C e (snd (m s))
          | None => True
          end) ->
    (forall a, sound (R a) (k a)) ->
    sound P (Step m k).

End Logic.

(** The three parameters of the logic for the tallies. *)
Definition inv {W} (s : St W) : Prop := tallied (globals s).

Definition moved {W} (s s' : St W) : Prop :=
  tally_step (globals s) (globals s').

Definition at_exit {W} (code : Z) (s : St W) : Prop :=
  code = exit_code (globals s).

(** A computation that raises nothing but exceptions of [bad]. *)
Definition raises_only {S A} (bad : exn -> Prop) (m : M S A) : Prop :=
  forall s e, fst (m s) = Some (Raise e) -> bad e.

(** An exception [int()] raises on a float: it is not finite. *)
Definition int_error (e : exn) : Prop := exists x, py_int x = Raise e.


(** ** Further example worlds *)

(** A child process that prints a log line, then its answer, then a line
    that is not for the harness. *)
Definition chatty : Sim.World :=
  {| Sim.clock := 1000;
     Sim.http := [];
     Sim.proc :=
       [Ok {| proc_stdout :=
                u "starting mcp-server" ++ nl
                  ++ Sim.json "{'code': 0}" ++ nl
                  ++ Sim.json "{'code': 1}" ++ nl |}];
     Sim.stream := [] |}.

(** A child process that prints nothing but blanks. *)
Definition mute : Sim.World :=
  {| Sim.clock := 1000;
     Sim.http := [];
     Sim.proc := [Ok {| proc_stdout := u "  " ++ nl ++ u " " |}];
     Sim.stream := [] |}.

(** ** The listener's events *)

(** The event announces the endpoint. *)
Definition announces (e : event) : bool := type_is (fst e) (u "endpoint").

(** A stream that sends a padded event name and padded data. *)
Definition padded : Sim.World :=
  {| Sim.clock := 1000;
     Sim.http := [];
     Sim.proc := [];
     Sim.stream := [ Some (u "event:  endpoint ");
                     Some (u "data:   /messages?session=1  ") ] |}.

(** ** The three tallies *)

(** The checks counted lie between [lc] and [hc], the checks counted and
    skipped together between [lt] and [ht], and no tally is negative. *)
Definition span (lc hc lt ht : Z) (g : Globals) : Prop :=
  0 <= PASS g /\ 0 <= FAIL g /\ 0 <= SKIP g
  /\ lc <= PASS g + FAIL g <= hc
  /\ lt <= PASS g + FAIL g + SKIP g <= ht.

Definition within {W} (lc hc lt ht : Z) (s : St W) : Prop :=
  span lc hc lt ht (globals s).

(** A statement that, when it returns, has counted [c] checks and added
    [k] to [SKIP]. *)
Definition adds {W A} (c k : Z) (m : M (St W) A) : Prop :=
  forall s a,
    fst (m s) = Some (Ok a) ->
    PASS (globals s) <= PASS (globals (snd (m s)))
    /\ FAIL (globals s) <= FAIL (globals (snd (m s)))
    /\ PASS (globals (snd (m s))) + FAIL (globals (snd (m s)))
       = PASS (globals s) + FAIL (globals s) + c
    /\ SKIP (globals (snd (m s))) = SKIP (globals s) + k.

(** The tallies of a complete run: each protocol has 30 tools, of which
    at least 17 are checked whatever happens. *)
Definition complete {W} (code : Z) (s : St W) : Prop := within 51 90 90 93 s.

(** ** A record of the calls *)

(** The loop of lines 120 to 201 and the summary after it, over any table
    of adapters; [main] runs it on [CALLERS]. *)
Definition rounds {W} (E : Env W) (L : PyLib) (callers : list (pystr * caller W))
  : prog W :=
  fold_right (fun pc k => for_body E L (fst pc) (snd pc) k) (@summary W) callers.

(** A call the script has made: the tool, the arguments, and the result
    the adapter returned. *)
Record Call : Type := {
  call_tool : pystr;
  call_args : value;
  call_result : value
}.

(** A world with the record of the calls made in it. *)
Definition Recorded (W : Type) : Type := (W * list Call)%type.

(** An operation of the world, leaving the record alone. *)
Definition aside_op {W A} (f : W -> A * W) : Recorded W -> A * Recorded W :=
  fun s => let (a, w') := f (fst s) in (a, (w', snd s)).

Definition aside {W} (E : Env W) : Env (Recorded W) :=
  {| requests_post := fun url body => aside_op (requests_post E url body);
     subprocess_run := fun argv input env => aside_op (subprocess_run E argv input env);
     time_time := aside_op (time_time E);
     time_strftime := fun fmt => aside_op (time_strftime E fmt);
     requests_get := fun url => aside_op (requests_get E url);
     iter_lines := aside_op (iter_lines E);
     sched := fun timeout => aside_op (sched E timeout) |}.

(** An adapter that writes down each call it returns from. *)
Definition recording {W} (call : caller W) : caller (Recorded W) :=
  fun tool args s =>
    let (r, w') := call tool args (fst s) in
    (r, (w', match r with
             | Some (Ok v) =>
                 snd s ++ [{| call_tool := tool; call_args := args; call_result := v |}]
             | _ => snd s
             end)).

Definition recorded {W} (callers : list (pystr * caller W))
  : list (pystr * caller (Recorded W)) :=
  map (fun pc => (fst pc, recording (snd pc))) callers.

(** The tools that create something, each with the tool that deletes it
    and the name of the argument that takes the identifier. *)
Definition cleanup_of (tool : pystr) : option (pystr * pystr) :=
  if Str.eqb tool (u "work_items.create")
  then Some (u "work_items.delete", u "work_item_id")
  else if Str.eqb tool (u "comments.create")
  then Some (u "comments.delete", u "comment_id")
  else if Str.eqb tool (u "labels.create")
  then Some (u "labels.delete", u "label_id")
  else if Str.eqb tool (u "sprints.create")
  then Some (u "sprints.delete", u "sprint_id")
  else None.

(** What a call leaves to clean up: the deleting call for what it
    created, when [get_id] finds an identifier that counts as true. *)
Definition leaves (c : Call) : option (pystr * value) :=
  match cleanup_of (call_tool c), get_id (call_result c) with
  | Some (del, key), Ok id =>
      if Py.truthy id then Some (del, VDict [(key, id)]) else None
  | _, _ => None
  end.

Definition asked (c : Call) : pystr * value := (call_tool c, call_args c).

Definition pend_of (d : option (pystr * value)) : list (pystr * value) :=
  match d with
  | Some x => [x]
  | None => []
  end.

(** In the record [log], whatever a call leaves to clean up is asked for
    later in the record, or is still in [pend]. *)
Definition owing (pend : list (pystr * value)) (log : list Call) : Prop :=
  forall pre c post d,
    log = pre ++ c :: post ->
    leaves c = Some d ->
    In d (map asked post) \/ In d pend.

Definition owes {W} (pend : list (pystr * value)) (s : St (Recorded W)) : Prop :=
  owing pend (snd (world s)).

(** A statement that leaves the record as it is. *)
Definition silent {W A} (m : M (St (Recorded W)) A) : Prop :=
  forall s, snd (world (snd (m s))) = snd (world s).

(** From a state of [P], a run of [p] that leaves through [sys.exit] does
    so in a state of [Q]. *)
Definition exits {W} (Q P : St W -> Prop) (p : prog W) : Prop :=
  forall n s code s', P s -> exec n p s = (Exited code, s') -> Q s'.

(** The state of a run with the record left out. *)
Definition plain {W} (s : St (Recorded W)) : St W :=
  {| globals := globals s; stdout := stdout s; world := fst (world s) |}.

(** The statement [m'] does with the record aside what [m] does. *)
Definition agree {W A} (m : M (St W) A) (m' : M (St (Recorded W)) A) : Prop :=
  forall s, fst (m' s) = fst (m (plain s)) /\ plain (snd (m' s)) = snd (m (plain s)).

(** Two scripts that agree statement by statement. *)
Inductive alike {W} : prog W -> prog (Recorded W) -> Prop :=
| alike_exit (code : Z) : alike (Exit code) (Exit code)
| alike_step (A : Type) (m : M (St W) A) (m' : M (St (Recorded W)) A)
    (k : A -> prog W) (k' : A -> prog (Recorded W)) :
    agree m m' ->
    (forall a, alike (k a) (k' a)) ->
    alike (Step m k) (Step m' k').

(** A state of the run, with a record. *)
Definition with_record {W} (s : St W) (log : list Call) : St (Recorded W) :=
  {| globals := globals s; stdout := stdout s; world := (world s, log) |}.

(** The run of the loop against the server of [all_well], with the record
    of its calls. *)
Definition recorded_run : status * St (Recorded Sim.World) :=
  exec 200 (rounds (aside Sim.env) Sim.lib (recorded (CALLERS Sim.env Sim.lib 4)))
    (with_record (start all_well) []).

(** ** Runs that reach the end *)

(** A statement that returns, whatever the state. *)
Definition returns {S A} (m : M S A) : Prop :=
  forall s, exists a, fst (m s) = Some (Ok a).



(** ** Messages the loop cannot use *)



(** ** The transcript *)

(** Every line of [ERRORS] has been printed. *)
Definition reported {W} (s : St W) : Prop :=
  incl (ERRORS (globals s)) (stdout s).

(** What the summary prints for the tallies [g]. *)
Definition summary_lines (g : Globals) : list pystr :=
  [ nl ++ times (u "=") 60;
    u "  最终测试结果";
    times (u "=") 60;
    u "  ✅ 通过: " ++ Str.of_Z (PASS g);
    u "  ❌ 失败: " ++ Str.of_Z (FAIL g);
    u "  ⏭️  跳过: " ++ Str.of_Z (SKIP g);
    u "  📊 通过率: " ++ Str.of_Z (pass_rate g) ++ u "%" ]
  ++ match ERRORS g with
     | [] => []
     | _ :: _ => (nl ++ u "  失败详情:") :: ERRORS g
     end
  ++ [times (u "=") 60].

(** ** Calls and checks *)

(** The record holds [d] calls more than the checks counted since the
    tallies stood at [base]. *)
Definition ahead {W} (base d : Z) (s : St (Recorded W)) : Prop :=
  Z.of_nat (List.length (snd (world s)))
  = PASS (globals s) + FAIL (globals s) - base + d.

(** * Properties *)

Unset Implicit Arguments.

(** ** Strings *)

Lemma eqb_eq (s t : pystr) : Str.eqb s t = true <-> s = t.
Proof.
  revert t; induction s as [|c s IH]; intros [|d t]; simpl; split;
    try congruence; try reflexivity.
  - intros H. apply andb_prop in H as [H1 H2].
    apply N.eqb_eq in H1. apply IH in H2. congruence.
  - intros H. injection H as -> ->. rewrite N.eqb_refl. simpl. now apply IH.
Qed.

Lemma eqb_refl (s : pystr) : Str.eqb s s = true.
Proof. now apply eqb_eq. Qed.

Lemma lstrip_head (s : pystr) :
  Str.lstrip s = [] \/
  exists c r, Str.lstrip s = c :: r /\ Str.isspace c = false.
Proof.
  induction s as [|c s IH]; simpl; [now left|].
  destruct (Str.isspace c) eqn:Hc; [exact IH|].
  right. now exists c, s.
Qed.

Lemma rstrip_head (c : N) (s : pystr) :
  Str.isspace c = false -> exists r, Str.rstrip (c :: s) = c :: r.
Proof.
  intros Hc. simpl. destruct (Str.rstrip s); [rewrite Hc|]; eauto.
Qed.

Lemma rstrip_idem (s : pystr) : Str.rstrip (Str.rstrip s) = Str.rstrip s.
Proof.
  induction s as [|c s IH]; [reflexivity|].
  simpl. destruct (Str.rstrip s) as [|x r] eqn:Hr.
  - destruct (Str.isspace c) eqn:Hc; [reflexivity|]. simpl. now rewrite Hc.
  - change (Str.rstrip (c :: x :: r)) with
      (match Str.rstrip (x :: r) with
       | [] => if Str.isspace c then [] else [c]
       | y :: r' => c :: y :: r'
       end).
    now rewrite IH.
Qed.

(** [strip] does nothing to a string it has produced. *)
Lemma strip_idem (s : pystr) : Str.strip (Str.strip s) = Str.strip s.
Proof.
  unfold Str.strip.
  destruct (lstrip_head s) as [-> | (c & r & -> & Hc)]; [reflexivity|].
  destruct (rstrip_head c r Hc) as [r' Hr'].
  rewrite Hr' at 1. simpl Str.lstrip. rewrite Hc.
  rewrite <- Hr'. apply rstrip_idem.
Qed.

(** ** The normalizer *)

(** C1, at the input where the code departs from it: a JSON-RPC answer
    whose "result" is null is a mapping without [result.content], so the
    claim has [extract] return it unchanged; the code looks "content" up
    in the null and raises [AttributeError]. *)
Theorem extract_raises_on_null_result (L : PyLib) :
  exists e,
    extract L (VDict [ (u "jsonrpc", VStr (u "2.0"));
                       (u "id", VInt 1);
                       (u "result", VNone) ]) = Raise e
    /\ exn_cls e = AttributeError.
Proof.
  eexists. split; [vm_compute; reflexivity | reflexivity].
Qed.

(** What does hold of [extract]: on anything that is not a mapping it is
    the identity. *)
Lemma extract_not_dict (L : PyLib) (resp : value) :
  Py.isinstance_dict resp = false -> extract L resp = Ok resp.
Proof. intros H. unfold extract. now rewrite H. Qed.

(** On an envelope with [result.content[0].text], the parsed text when it
    parses and the text itself when it does not; on a mapping with no
    "result", with no "content" in its result, with an empty content, or
    with a first item that is a mapping without "text", the mapping. *)
Lemma extract_on_envelopes (L : PyLib) (d : list (pystr * value)) :
  (forall rd item rest text,
      Py.lookup (u "result") d = Some (VDict rd) ->
      Py.lookup (u "content") rd = Some (VList (VDict item :: rest)) ->
      Py.lookup (u "text") item = Some (VStr text) ->
      extract L (VDict d) =
        match json_loads L text with
        | Ok v => Ok v
        | Raise _ => Ok (VStr text)
        end)
  /\ (Py.lookup (u "result") d = None -> extract L (VDict d) = Ok (VDict d))
  /\ (forall rd,
        Py.lookup (u "result") d = Some (VDict rd) ->
        Py.lookup (u "content") rd = None \/
        Py.lookup (u "content") rd = Some (VList []) \/
        (exists item rest,
            Py.lookup (u "content") rd = Some (VList (VDict item :: rest))
            /\ Py.lookup (u "text") item = None) ->
        extract L (VDict d) = Ok (VDict d)).
Proof.
  unfold extract, Py.get. simpl Py.isinstance_dict. cbv iota.
  repeat split.
  - intros rd item rest text -> Hc Ht. simpl. rewrite Hc. simpl.
    rewrite Ht. simpl. now destruct (json_loads L text).
  - intros ->. reflexivity.
  - intros rd -> [Hc | [Hc | (item & rest & Hc & Ht)]]; simpl; rewrite Hc;
      simpl; try reflexivity.
    now rewrite Ht.
Qed.

(** ** The predicates on error results *)

(** C3 does not hold as stated.  The result of a failed call,
    [{"error": "timed out"}], is a mapping, which is all the predicate of
    [work_items.get_by_identifier] asks for; and a mapping may carry an
    "error" key next to a "code" of 0, which is all [is_ok] asks for. *)
Lemma error_results_not_all_rejected :
  ~ (forall (L : PyLib) (r : value),
        has_key (u "error") r ->
        Forall (fun p => accepts p r = false) (predicates L)).
Proof.
  intros H.
  specialize (H Sim.lib (error_result (u "timed out"))).
  assert (K : has_key (u "error") (error_result (u "timed out")))
    by (vm_compute; discriminate).
  specialize (H K).
  rewrite Forall_forall in H.
  specialize (H expect_get_by_identifier).
  assert (I : In expect_get_by_identifier (predicates Sim.lib))
    by (simpl; auto).
  specialize (H I). vm_compute in H. discriminate.
Qed.

Lemma lookup_none_contains (k : pystr) (d : list (pystr * value)) :
  Py.lookup k d = None -> Py.contains k (VDict d) = Ok false.
Proof. intros H. simpl. now rewrite H. Qed.

Lemma is_ok_without_code (d : list (pystr * value)) :
  Py.lookup (u "code") d = None -> is_ok (VDict d) = Ok (VBool false).
Proof.
  intros H. unfold is_ok, Py.get. simpl Py.isinstance_dict. cbv iota.
  now rewrite H.
Qed.

(** C3, amended: a mapping with an "error" key and neither a "code" nor a
    "url" key, as every error result of the adapters is, makes [is_ok],
    [has_id], [ok_or_str] and the predicates of [files.upload] and
    [proposals.get] evaluate to [False]. *)
Theorem error_result_rejected (L : PyLib) (r : value) :
  has_key (u "error") r ->
  ~ has_key (u "code") r ->
  ~ has_key (u "url") r ->
  Forall (fun p => p r = Ok (VBool false))
    [ is_ok; has_id; ok_or_str L; expect_files_upload; expect_proposals_get ].
Proof.
  destruct r as [| | | | | |d]; simpl; try tauto.
  intros _ Hcode Hurl.
  assert (Hc : Py.lookup (u "code") d = None)
    by (destruct (Py.lookup (u "code") d); [exfalso; apply Hcode|]; congruence).
  assert (Hu : Py.lookup (u "url") d = None)
    by (destruct (Py.lookup (u "url") d); [exfalso; apply Hurl|]; congruence).
  pose proof (is_ok_without_code d Hc) as Hok.
  repeat constructor.
  - exact Hok.
  - unfold has_id. now rewrite Hok.
  - unfold ok_or_str. now rewrite Hok.
  - unfold expect_files_upload. simpl Py.isinstance_dict. cbv iota.
    now rewrite (lookup_none_contains _ _ Hu).
  - unfold expect_proposals_get. simpl Py.isinstance_dict. cbv iota.
    now rewrite (lookup_none_contains _ _ Hc).
Qed.

Lemma error_result_rejected_witness :
  Forall (fun p => p (error_result (u "timed out")) = Ok (VBool false))
    [ is_ok; has_id; ok_or_str Sim.lib; expect_files_upload;
      expect_proposals_get ].
Proof.
  apply (error_result_rejected Sim.lib (error_result (u "timed out")));
    vm_compute; congruence.
Defined.

(** ** The assertion layer *)

(** C4: [check] returns what the predicate gave ([False] if it raised)
    and, by the truth of that, either adds one to [PASS] and leaves
    [FAIL] and [ERRORS] alone, or adds one to [FAIL], leaves [PASS] alone
    and appends one line to [ERRORS], made of the transport, the tool and
    the first 140 characters of [str(result)].  [SKIP] and the world are
    untouched. *)
Theorem check_counts_once (W : Type) (L : PyLib) (proto tool : pystr)
    (result : value) (expect_fn : value -> res value) (s : St W) :
  let ok := match expect_fn result with Ok v => v | Raise _ => VBool false end in
  let out := check L proto tool result expect_fn s in
  let g := globals s in
  let g' := globals (snd out) in
  fst out = Some (Ok ok)
  /\ world (snd out) = world s
  /\ SKIP g' = SKIP g
  /\ (if Py.truthy ok
      then PASS g' = PASS g + 1 /\ FAIL g' = FAIL g /\ ERRORS g' = ERRORS g
      else PASS g' = PASS g /\ FAIL g' = FAIL g + 1
           /\ exists rendering,
               rendering = firstn 140 (py_str L result)
               /\ (List.length rendering <= 140)%nat
               /\ ERRORS g' =
                    ERRORS g ++ [u "  ❌ [" ++ proto ++ u "] " ++ tool
                                   ++ u " → " ++ rendering])
  /\ ((exists e, expect_fn result = Raise e) ->
      PASS g' = PASS g /\ FAIL g' = FAIL g + 1).
Proof.
  unfold check, try_, bind, lift, modify_globals, print, ret.
  destruct (expect_fn result) as [ok | e]; cbn -[firstn Str.u app];
    [destruct (Py.truthy ok); cbn -[firstn Str.u app]|];
    repeat match goal with |- _ /\ _ => split end; auto;
    try (intros [? ?]; discriminate);
    try (intros _; split; reflexivity);
    eexists; (split; [reflexivity|]);
    (split; [apply firstn_le_length | reflexivity]).
Qed.

(** ** Computations *)

Section Runs.

Context {S : Type}.

Lemma keeps_ret {A} (I : S -> Prop) (a : A) : keeps I (ret a).
Proof. intros s H. exact H. Qed.

Lemma keeps_lift {A} (I : S -> Prop) (r : res A) : keeps I (lift r).
Proof. intros s H. exact H. Qed.

Lemma keeps_bind {A B} (I : S -> Prop) (m : M S A) (k : A -> M S B) :
  keeps I m -> (forall a, keeps I (k a)) -> keeps I (bind m k).
Proof.
  intros Hm Hk s H. unfold bind. specialize (Hm s H).
  destruct (m s) as [[[a | e] |] s']; simpl in *; auto; now apply Hk.
Qed.

Lemma keeps_try_ {A} (I : S -> Prop) (m h : M S A) :
  keeps I m -> keeps I h -> keeps I (try_ m h).
Proof.
  intros Hm Hh s H. unfold try_. specialize (Hm s H).
  destruct (m s) as [[[a | e] |] s']; simpl in *; auto; now apply Hh.
Qed.

Lemma keeps_try_as {A} (I : S -> Prop) (m : M S A) (h : exn -> M S A) :
  keeps I m -> (forall e, keeps I (h e)) -> keeps I (try_as m h).
Proof.
  intros Hm Hh s H. unfold try_as. specialize (Hm s H).
  destruct (m s) as [[[a | e] |] s']; simpl in *; auto; now apply Hh.
Qed.

(** What follows a computation that keeps [I] starts in [I]. *)
Lemma bind_state {A B} (I : S -> Prop) (m : M S A) (k : A -> M S B) (s : S) :
  (forall a, keeps I (k a)) -> I (snd (m s)) -> I (snd (bind m k s)).
Proof.
  intros Hk H. unfold bind.
  destruct (m s) as [[[a | e] |] s']; simpl in *; auto; now apply Hk.
Qed.

(** A handler that only returns a value leaves the state where the body
    left it. *)
Lemma try_as_state {A} (m : M S A) (f : exn -> A) (s : S) :
  snd (try_as m (fun e => ret (f e)) s) = snd (m s).
Proof.
  unfold try_as. now destruct (m s) as [[[a | e] |] s'].
Qed.


End Runs.

(** ** The listener and the queue *)

Section Listener.

Context {W : Type} (E : Env W).

(** What the listener never writes, it leaves as it was. *)
Lemma listen_step_frame {X} (obs : Session -> X) :
  (forall x c, obs (with_t x c) = obs c) ->
  (forall x c, obs (with_q x c) = obs c) ->
  (forall x c, obs (with_ready x c) = obs c) ->
  forall s, obs (fst (listen_step E s)) = obs (fst s).
Proof.
  intros Ht Hq Hr [c w]. unfold listen_step.
  destruct (t c) as [| | event_type |]; try reflexivity.
  - destruct (requests_get E _ w) as [[[] | e] w']; cbn [fst]; apply Ht.
  - destruct (iter_lines E w) as [[[line |] |] w']; cbn [fst];
      try (destruct (stop c); cbn [fst]); try apply Ht; try reflexivity.
    unfold listen_line.
    destruct (Str.startswith line (u "event:")); [apply Ht|].
    destruct (Str.startswith line (u "data:")).
    + rewrite Ht. destruct (type_is event_type (u "endpoint"));
        rewrite ?Hr, Hq; reflexivity.
    + destruct (Str.eqb line []); [apply Ht | reflexivity].
Qed.

Lemma listen_step_posted (s : Session * W) :
  posted (fst (listen_step E s)) = posted (fst s).
Proof. now apply listen_step_frame. Qed.

Lemma listen_step_stop (s : Session * W) :
  stop (fst (listen_step E s)) = stop (fst s).
Proof. now apply listen_step_frame. Qed.

(** The listener strips the data it queues. *)
Lemma listen_step_stripped (s : Session * W) :
  stripped (fst s) -> stripped (fst (listen_step E s)).
Proof.
  destruct s as [c w]. unfold stripped, listen_step. cbn [fst]. intros H.
  destruct (t c) as [| | event_type |]; try exact H.
  - now destruct (requests_get E _ w) as [[[] | e] w'].
  - destruct (iter_lines E w) as [[[line |] |] w']; cbn [fst];
      try (destruct (stop c); cbn [fst]); try exact H.
    unfold listen_line.
    destruct (Str.startswith line (u "event:")); [exact H|].
    destruct (Str.startswith line (u "data:")).
    + assert (K : Forall (fun e : event => Str.strip (snd e) = snd e)
                    (q c ++ [(event_type, Str.strip (skipn 5 line))])).
      { apply Forall_app. split; [exact H|].
        constructor; [apply strip_idem | constructor]. }
      now destruct (type_is event_type (u "endpoint")).
    + now destruct (Str.eqb line []).
Qed.



End Listener.

(** ** Invariants of the objects of one call *)

Ltac keeps_step :=
  first
    [ apply keeps_ret
    | apply keeps_lift
    | apply keeps_bind; [| intros ?]
    | apply keeps_try_
    | apply keeps_try_as; [| intros ?]
    | match goal with
      | |- keeps _ (if ?b then _ else _) => destruct b
      | |- keeps _ (match ?x with Some _ => _ | None => _ end) => destruct x
      end ].

Section SessionInvariant.

Context {W : Type} (E : Env W) (L : PyLib).

(** A property [P] of the session that the listener and a dequeue keep. *)
Variable P : Session -> Prop.
Hypothesis P_listen : forall s, P (fst s) -> P (fst (listen_step E s)).
Hypothesis P_pop : forall c e rest, q c = e :: rest -> P c -> P (with_q rest c).
Hypothesis P_stop : forall c, P c -> P (with_stop true c).

Lemma listen_keeps (n : nat) (s : Session * W) :
  P (fst s) -> P (fst (listen E n s)).
Proof.
  revert s; induction n as [|n IH]; intros s H; [exact H|].
  simpl. apply IH. now apply P_listen.
Qed.

Lemma meanwhile_keeps (timeout : Z) :
  keeps (fun s => P (fst s)) (meanwhile E timeout).
Proof.
  intros [c w] H. unfold meanwhile.
  destruct (sched E timeout w) as [n w']. cbn [snd].
  now apply listen_keeps.
Qed.

Lemma q_get_keeps (timeout : Z) : keeps (fun s => P (fst s)) (q_get E timeout).
Proof.
  unfold q_get. apply keeps_bind; [apply meanwhile_keeps|].
  intros _ s H. destruct (q (fst s)) as [|e rest] eqn:Hq; cbn [fst snd]; [exact H|].
  now apply P_pop with e.
Qed.

Lemma now_keeps : keeps (fun s => P (fst s)) (now E).
Proof.
  intros s H. unfold now. now destruct (time_time E (snd s)).
Qed.

Lemma stop_set_keeps : keeps (fun s : Session * W => P (fst s)) (@stop_set W).
Proof. intros s H. now apply P_stop. Qed.

Lemma poll_keeps (fuel : nat) (deadline : float) :
  keeps (fun s => P (fst s)) (poll E L fuel deadline).
Proof.
  induction fuel as [|fuel IH]; [intros s H; exact H|].
  cbn [poll]. apply keeps_bind; [apply now_keeps|]. intros x.
  destruct (PrimFloat.ltb x deadline); [|apply keeps_ret].
  apply keeps_bind.
  - apply keeps_try_; [|apply keeps_ret].
    apply keeps_bind; [apply q_get_keeps|]. intros evt.
    destruct (type_is (fst evt) (u "message")); [|apply keeps_ret].
    apply keeps_bind; [apply stop_set_keeps|]. intros _.
    repeat keeps_step.
  - intros [v|]; [apply keeps_ret | exact IH].
Qed.

(** The rest of [sse_body] after [sse_open]. *)
Lemma sse_rest_keeps (fuel : nat) (t0 : float) :
  keeps (fun s => P (fst s))
    (bind (poll E L fuel (PrimFloat.add t0 10))
       (fun r =>
          match r with
          | Some v => ret v
          | None => bind (@stop_set W) (fun _ => ret timeout_result)
          end)).
Proof.
  apply keeps_bind; [apply poll_keeps|].
  intros [v|]; [apply keeps_ret|].
  apply keeps_bind; [apply stop_set_keeps | intros _; apply keeps_ret].
Qed.

Hypothesis P_start : forall c, P c -> P (with_t Starting c).
Hypothesis P_posted : forall c x, P c -> P (with_posted x c).

Lemma post_keeps (url : pystr) (body : value) :
  keeps (fun s => P (fst s)) (post E url body).
Proof.
  unfold post. apply keeps_bind; [apply meanwhile_keeps|].
  intros _ s H. destruct (requests_post E url body (snd s)) as [r w'].
  cbn [fst snd]. now apply P_posted.
Qed.

Lemma sse_endpoint_keeps : keeps (fun s => P (fst s)) (sse_endpoint E).
Proof.
  unfold sse_endpoint. apply keeps_try_; [|apply keeps_ret].
  apply keeps_bind; [apply q_get_keeps | intros evt; apply keeps_ret].
Qed.

Lemma sse_open_keeps (tool : pystr) (args : value) :
  keeps (fun s => P (fst s)) (sse_open E tool args).
Proof.
  unfold sse_open.
  apply keeps_bind; [intros s H; now apply P_start|]. intros _.
  apply keeps_bind; [apply meanwhile_keeps|]. intros _.
  apply keeps_bind; [apply sse_endpoint_keeps|]. intros endpoint.
  apply keeps_bind; [apply post_keeps | intros _; apply now_keeps].
Qed.

End SessionInvariant.

(** ** The event-stream call, step by step *)

Section Session.

Context {W : Type} (E : Env W) (L : PyLib).

Lemma meanwhile_run (timeout : Z) (s : Session * W) :
  meanwhile E timeout s = (Some (Ok tt), snd (meanwhile E timeout s)).
Proof.
  destruct s as [c w]. unfold meanwhile. now destruct (sched E timeout w).
Qed.

(** [q.get] hands out the head of the queue as the listener has left it,
    or raises [queue.Empty]. *)
Lemma q_get_run (timeout : Z) (s : Session * W) :
  let sm := snd (meanwhile E timeout s) in
  q_get E timeout s =
    match q (fst sm) with
    | e :: rest => (Some (Ok e), (with_q rest (fst sm), snd sm))
    | [] => (Some (Raise (Exn Empty [])), sm)
    end.
Proof.
  cbv zeta. unfold q_get, bind. rewrite meanwhile_run. cbn [fst snd].
  now destruct (q (fst (snd (meanwhile E timeout s)))).
Qed.

Lemma now_run (s : Session * W) :
  now E s = (Some (Ok (fst (time_time E (snd s)))),
             (fst s, snd (time_time E (snd s)))).
Proof. unfold now. now destruct (time_time E (snd s)). Qed.

Lemma posted_listen (l : list (pystr * value)) (s : Session * W) :
  posted (fst s) = l -> posted (fst (listen_step E s)) = l.
Proof. intros H. now rewrite listen_step_posted. Qed.

Lemma stop_listen (b : bool) (s : Session * W) :
  stop (fst s) = b -> stop (fst (listen_step E s)) = b.
Proof. intros H. now rewrite listen_step_stop. Qed.

(** One POST is recorded by [post], whatever comes of it. *)
Lemma post_posted (url : pystr) (body : value) (s : Session * W) :
  posted (fst (snd (post E url body s))) = posted (fst s) ++ [(url, body)].
Proof.
  unfold post, bind. rewrite meanwhile_run.
  pose proof (meanwhile_keeps E (fun c => posted c = posted (fst s))
                (posted_listen (posted (fst s))) 15 s eq_refl) as H.
  cbn beta in H.
  destruct (requests_post E url body (snd (snd (meanwhile E 15 s)))) as [r w'].
  cbn [fst snd posted with_posted]. now rewrite H.
Qed.

Lemma connected_posted (w : W) : posted (fst (connected E w)) = [].
Proof.
  unfold connected, bind, thread_start, ready_wait. cbn [fst snd].
  rewrite meanwhile_run.
  now apply (meanwhile_keeps E (fun c => posted c = []) (posted_listen [])).
Qed.

Lemma connected_stripped (w : W) : stripped (fst (connected E w)).
Proof.
  unfold connected, bind, thread_start, ready_wait. cbn [fst snd].
  rewrite meanwhile_run.
  apply (meanwhile_keeps E stripped (listen_step_stripped E)).
  constructor.
Qed.

(** The endpoint [sse_endpoint] settles on is the one the first dequeue
    stands for; the data needs no stripping, the listener has done it. *)
Lemma sse_endpoint_run (w : W) :
  sse_endpoint E (connected E w) =
    (Some (Ok (endpoint_of (first_dequeued E w))), snd (q_get E 3 (connected E w))).
Proof.
  unfold first_dequeued.
  unfold sse_endpoint, try_, bind.
  pose proof (meanwhile_keeps E stripped (listen_step_stripped E) 3 (connected E w)
                (connected_stripped w)) as Hs.
  cbn beta in Hs. unfold stripped in Hs.
  rewrite q_get_run. cbv zeta.
  destruct (q (fst (snd (meanwhile E 3 (connected E w))))) as [|[event_type data] rest];
    [reflexivity|].
  cbn [fst snd ret endpoint_of]. inversion Hs as [|? ? Hd _]. cbn [snd] in Hd.
  now rewrite Hd.
Qed.

Lemma q_get_posted (timeout : Z) (s : Session * W) :
  posted (fst (snd (q_get E timeout s))) = posted (fst s).
Proof.
  apply (q_get_keeps E (fun c => posted c = posted (fst s))
           (posted_listen (posted (fst s)))); [|reflexivity].
  intros c e rest _ H. exact H.
Qed.

(** [sse_open] from a fresh session posts once, to the URL made from that
    endpoint. *)
Lemma sse_open_posted (tool : pystr) (args : value) (w : W) :
  posted (fst (snd (sse_open E tool args (new_session, w)))) =
    [(sse_url (endpoint_of (first_dequeued E w)), envelope tool args)].
Proof.
  assert (Hopen :
    sse_open E tool args (new_session, w) =
      bind (sse_endpoint E)
        (fun endpoint =>
           bind (post E (sse_url endpoint) (envelope tool args))
             (fun _ => now E)) (connected E w)).
  { unfold sse_open, connected. unfold bind at 1 2 5. unfold thread_start at 1 2.
    cbn [fst snd]. unfold ready_wait. rewrite meanwhile_run. reflexivity. }
  rewrite Hopen. unfold bind at 1. rewrite sse_endpoint_run.
  apply (bind_state (fun s => posted (fst s) = _)).
  - intros _ s H. rewrite now_run. exact H.
  - rewrite post_posted, q_get_posted, connected_posted. reflexivity.
Qed.

Lemma posted_frame (l : list (pystr * value)) :
  (forall s : Session * W, posted (fst s) = l -> posted (fst (listen_step E s)) = l)
  /\ (forall c e rest, q c = e :: rest -> posted c = l -> posted (with_q rest c) = l)
  /\ (forall c, posted c = l -> posted (with_stop true c) = l).
Proof.
  repeat split; auto. apply posted_listen.
Qed.

(** The whole call posts exactly that one request. *)
Lemma sse_session_posted (fuel : nat) (tool : pystr) (args : value) (w : W) :
  posted (fst (snd (sse_session E L fuel tool args (new_session, w)))) =
    [(sse_url (endpoint_of (first_dequeued E w)), envelope tool args)].
Proof.
  unfold sse_session. rewrite try_as_state. unfold sse_body.
  set (l := [(sse_url (endpoint_of (first_dequeued E w)), envelope tool args)]).
  destruct (posted_frame l) as (Hl & Hp & Hs).
  apply (bind_state (fun s => posted (fst s) = l)).
  - intros t0. exact (sse_rest_keeps E L (fun c => posted c = l) Hl Hp Hs fuel t0).
  - apply sse_open_posted.
Qed.

End Session.


(** C10: when the first dequeued event is of type "endpoint", its data is
    the whole URL of the POST unless it starts with "/", and only then is
    it appended to the base URL. *)
Theorem sse_call_endpoint_url (W : Type) (E : Env W) (L : PyLib) (fuel : nat)
    (tool : pystr) (args : value) (w : W) (event_type : option pystr)
    (data : pystr) :
  first_dequeued E w = Some (Ok (event_type, data)) ->
  type_is event_type (u "endpoint") = true ->
  let requests :=
    posted (fst (snd (sse_session E L fuel tool args (new_session, w)))) in
  (Str.startswith data (u "/") = false ->
   requests = [(data, envelope tool args)])
  /\ (Str.startswith data (u "/") = true ->
      requests = [(MCP_HTTP ++ data, envelope tool args)]).
Proof.
  intros Hfirst Hty. cbv zeta.
  rewrite sse_session_posted, Hfirst. cbn [endpoint_of].
  rewrite Hty. unfold sse_url. split; intros ->; reflexivity.
Qed.

Lemma sse_call_endpoint_url_witness :
  posted (fst (snd (sse_session Sim.env Sim.lib 4 (u "projects.list") VNone
                      (new_session, elsewhere))))
  = [(u "http://127.0.0.1:9/rpc", envelope (u "projects.list") VNone)].
Proof.
  apply (sse_call_endpoint_url Sim.World Sim.env Sim.lib 4 (u "projects.list") VNone
           elsewhere (Some (u "endpoint")) (u "http://127.0.0.1:9/rpc"));
    vm_compute; reflexivity.
Defined.

(** C7, at the input where the code departs from it: when the POST
    raises, [sse_call] returns the error result through the outer handler
    and [stop] has not been set; the listener is still in its loop. *)
Theorem sse_stop_unset_after_failed_post :
  let out := sse_session Sim.env_quiet Sim.lib 4 (u "projects.list") VNone
               (new_session, refusing) in
  fst out = Some (Ok (error_result (u "Connection refused")))
  /\ stop (fst (snd out)) = false
  /\ t (fst (snd out)) = Reading None.
Proof. vm_compute. repeat split. Qed.

(** ** The polling loop *)

Section Polling.

Context {W : Type} (E : Env W) (L : PyLib).




(** One round of the loop with the clock before the deadline. *)
Lemma poll_round (fuel : nat) (deadline : float) (s : Session * W) :
  let x := fst (time_time E (snd s)) in
  let s1 := (fst s, snd (time_time E (snd s))) in
  let sm := snd (meanwhile E 2 s1) in
  poll E L (S fuel) deadline s =
    if PrimFloat.ltb x deadline then
      match q (fst sm) with
      | [] => poll E L fuel deadline sm
      | (event_type, data) :: rest =>
          let s2 := (with_q rest (fst sm), snd sm) in
          if type_is event_type (u "message") then
            match rbind (json_loads L data) (extract L) with
            | Ok v => (Some (Ok (Some v)), (with_stop true (fst s2), snd s2))
            | Raise _ => poll E L fuel deadline (with_stop true (fst s2), snd s2)
            end
          else poll E L fuel deadline s2
      end
    else (Some (Ok None), s1).
Proof.
  cbv zeta. cbn [poll]. unfold bind at 1. rewrite now_run.
  destruct (PrimFloat.ltb (fst (time_time E (snd s))) deadline); [|reflexivity].
  unfold bind at 1. unfold try_, bind at 1. rewrite q_get_run. cbv zeta.
  destruct (q (fst (snd (meanwhile E 2 (fst s, snd (time_time E (snd s)))))))
    as [|[event_type data] rest]; [reflexivity|].
  cbn [fst snd].
  destruct (type_is event_type (u "message")); [|reflexivity].
  unfold bind, stop_set, lift, ret. cbn [fst snd].
  now destruct (rbind (json_loads L data) (extract L)).
Qed.



Lemma poll_never_raises (fuel : nat) (deadline : float) (s : Session * W) (e : exn) :
  fst (poll E L fuel deadline s) <> Some (Raise e).
Proof.
  revert s; induction fuel as [|fuel IH]; intros s; [discriminate|].
  rewrite poll_round. cbv zeta.
  destruct (PrimFloat.ltb _ deadline); [|discriminate].
  destruct (q _) as [|[event_type data] rest]; [apply IH|].
  destruct (type_is event_type (u "message")); [|apply IH].
  destruct (rbind (json_loads L data) (extract L)); [discriminate | apply IH].
Qed.


End Polling.

(** ** The outcome of the event-stream call *)

Section Outcome.

Context {W : Type} (E : Env W) (L : PyLib).


(** After [sse_open] the call is the polling loop and what follows it. *)
Lemma sse_session_opened (fuel : nat) (tool : pystr) (args : value) (w : W)
    (t0 : float) (s : Session * W) :
  sse_open E tool args (new_session, w) = (Some (Ok t0), s) ->
  sse_session E L fuel tool args (new_session, w) =
    match poll E L fuel (PrimFloat.add t0 10) s with
    | (Some (Ok (Some v)), s') => (Some (Ok v), s')
    | (Some (Ok None), s') =>
        (Some (Ok timeout_result), (with_stop true (fst s'), snd s'))
    | (Some (Raise e), s') => (Some (Ok (error_result (exn_str e))), s')
    | (None, s') => (None, s')
    end.
Proof.
  intros Hopen. unfold sse_session, sse_body, try_as. unfold bind at 1.
  rewrite Hopen. unfold bind at 1.
  now destruct (poll E L fuel (PrimFloat.add t0 10) s) as [[[[v |] | e] |] s'].
Qed.







End Outcome.

(** ** The simulated worlds meet the hypotheses *)






(** ** Transport failures *)

Section TransportErrors.

Context {W : Type} (E : Env W) (L : PyLib).


Lemma stdio_call_run (tool : pystr) (args : value) (w : W) :
  fst (stdio_call E L tool args w) =
    Some (Ok match fst (subprocess_run E [MCP_BIN; u "--transport"; u "stdio"]
                          (json_dumps L (envelope tool args)) stdio_environ w) with
             | Ok proc =>
                 match scan_lines L (Str.split_lines (Str.strip (proc_stdout proc))) with
                 | Ok v => v
                 | Raise e => error_result (exn_str e)
                 end
             | Raise e => error_result (exn_str e)
             end).
Proof.
  unfold stdio_call, try_as, bind, op_res, lift, ret.
  destruct (subprocess_run E [MCP_BIN; u "--transport"; u "stdio"]
              (json_dumps L (envelope tool args)) stdio_environ w)
    as [[proc | e] w']; cbn [fst snd]; [|reflexivity].
  now destruct (scan_lines L (Str.split_lines (Str.strip (proc_stdout proc)))).
Qed.



End TransportErrors.



(** ** Runs of the script *)

Section Soundness.

Context {W : Type} (I : St W -> Prop) (T : St W -> St W -> Prop)
  (Q : Z -> St W -> Prop) (C : exn -> St W -> Prop).

Lemma exec_zero (p : prog W) (s : St W) : snd (exec 0 p s) = s.
Proof. now destruct p. Qed.

(** [I] holds wherever a run stands. *)
Lemma exec_invariant (P : St W -> Prop) (p : prog W) :
  sound I T Q C P p -> forall n s, P s -> I (snd (exec n p s)).
Proof.
  induction 1 as [P code Hexit | P A m k R HP Hm _ IH]; intros n s Hs.
  - destruct n; now apply Hexit.
  - destruct n as [|n]; [now apply HP|].
    cbn [exec]. destruct (Hm s Hs) as (_ & Hi & Hr).
    destruct (m s) as [[[a | e] |] s']; cbn [fst snd] in *; auto.
Qed.

(** A run that has left through [sys.exit(code)] is in a state of [Q code]. *)
Lemma exec_exit (P : St W -> Prop) (p : prog W) :
  sound I T Q C P p ->
  forall n s code s', P s -> exec n p s = (Exited code, s') -> Q code s'.
Proof.
  induction 1 as [P code Hexit | P A m k R HP Hm _ IH]; intros n s c s' Hs He.
  - assert (K : exec n (Exit code) s = (Exited code, s)) by now destruct n.
    rewrite K in He. injection He as <- <-. now apply Hexit.
  - destruct n as [|n]; [discriminate|].
    cbn [exec] in He. destruct (Hm s Hs) as (_ & _ & Hr).
    destruct (m s) as [[[a | e] |] s'']; cbn [fst snd] in *; try discriminate.
    now apply (IH a n s'' c s').
Qed.


(** One more statement moves the state by [T]. *)
Lemma exec_step (P : St W -> Prop) (p : prog W) :
  (forall s, T s s) ->
  sound I T Q C P p ->
  forall n s, P s -> T (snd (exec n p s)) (snd (exec (S n) p s)).
Proof.
  intros Hrefl. induction 1 as [P code Hexit | P A m k R HP Hm _ IH]; intros n s Hs.
  - destruct n; apply Hrefl.
  - destruct (Hm s Hs) as (Ht & _ & Hr).
    destruct n as [|n].
    + change (exec 0 (Step m k) s) with (Running, s).
      change (exec 1 (Step m k) s) with
        (match m s with
         | (Some (Ok a), s') => exec 0 (k a) s'
         | (Some (Raise e), s') => (Crashed e, s')
         | (None, s') => (Starved, s')
         end).
      destruct (m s) as [[[a | e] |] s']; cbn [fst snd] in *; auto.
      now rewrite exec_zero.
    + change (exec (S n) (Step m k) s) with
        (match m s with
         | (Some (Ok a), s') => exec n (k a) s'
         | (Some (Raise e), s') => (Crashed e, s')
         | (None, s') => (Starved, s')
         end).
      change (exec (S (S n)) (Step m k) s) with
        (match m s with
         | (Some (Ok a), s') => exec (S n) (k a) s'
         | (Some (Raise e), s') => (Crashed e, s')
         | (None, s') => (Starved, s')
         end).
      destruct (m s) as [[[a | e] |] s']; cbn [fst snd] in *; auto.
Qed.

End Soundness.

(** ** The tallies through the script *)

Lemma tally_step_refl (g : Globals) : tally_step g g.
Proof. left. now split. Qed.

Lemma tally_step_tallied (g g' : Globals) :
  tallied g -> tally_step g g' -> tallied g'.
Proof.
  unfold tallied. intros H [[Hf He] | [Hf [line He]]]; rewrite Hf, He; [exact H|].
  rewrite length_app. cbn [List.length]. lia.
Qed.

Create HintDb tally.

Section Statements.

Context {W : Type} (L : PyLib).

Lemma unchanged_counts {A} (m : M (St W) A) : unchanged m -> counts m.
Proof. intros H s. left. apply H. Qed.

Lemma unchanged_ret {A} (a : A) : unchanged (@ret (St W) A a).
Proof. intros s. now split. Qed.

Lemma unchanged_lift {A} (r : res A) : unchanged (@lift (St W) A r).
Proof. intros s. now split. Qed.

Lemma unchanged_print (line : pystr) : unchanged (@print W line).
Proof. intros s. now split. Qed.

Lemma unchanged_read : unchanged (read_globals W).
Proof. intros s. now split. Qed.

Lemma unchanged_in_world {A} (m : M W A) : unchanged (in_world m).
Proof. intros s. unfold in_world. now destruct (m (world s)). Qed.

Lemma unchanged_skip (n : Z) : unchanged (@modify_globals W (add_SKIP n)).
Proof. intros s. now split. Qed.

Lemma unchanged_bind {A B} (m : M (St W) A) (k : A -> M (St W) B) :
  unchanged m -> (forall a, unchanged (k a)) -> unchanged (bind m k).
Proof.
  intros Hm Hk s. unfold bind. specialize (Hm s).
  destruct (m s) as [[[a | e] |] s']; cbn [snd] in *; try exact Hm.
  destruct (Hk a s') as [H1 H2]. destruct Hm as [H3 H4]. split; congruence.
Qed.

Lemma counts_after {A B} (m : M (St W) A) (k : A -> M (St W) B) :
  unchanged m -> (forall a, counts (k a)) -> counts (bind m k).
Proof.
  intros Hm Hk s. unfold bind. specialize (Hm s).
  destruct (m s) as [[[a | e] |] s']; cbn [snd] in *; try (left; exact Hm).
  destruct Hm as [H3 H4]. specialize (Hk a s'). unfold tally_step in *.
  rewrite <- H3, <- H4. exact Hk.
Qed.

(** [check] counts: this is C4 read for [FAIL] and [ERRORS]. *)
Lemma counts_check (proto tool : pystr) (result : value)
    (expect_fn : value -> res value) :
  counts (@check W L proto tool result expect_fn).
Proof.
  intros s. unfold check, try_, bind, lift, modify_globals, print, ret.
  destruct (expect_fn result) as [ok | e]; cbn -[firstn Str.u app];
    [destruct (Py.truthy ok); cbn -[firstn Str.u app]|];
    try (left; now split); right; (split; [reflexivity | now eexists]).
Qed.

Lemma unchanged_print_each (lines : list pystr) : unchanged (@print_each W lines).
Proof.
  induction lines as [|line lines IH]; [apply unchanged_ret|].
  cbn [print_each fold_right]. apply unchanged_bind; [apply unchanged_print|].
  intros _. exact IH.
Qed.

End Statements.

#[local] Hint Resolve unchanged_ret unchanged_lift unchanged_print unchanged_read
  unchanged_in_world unchanged_skip unchanged_print_each : tally.

Ltac unchanged_tac :=
  repeat first
    [ apply unchanged_bind; [| intros ?]
    | solve [auto with tally] ].

Ltac counts_tac :=
  first
    [ apply counts_check
    | apply counts_after; [unchanged_tac | intros ?; apply counts_check]
    | apply unchanged_counts; unchanged_tac ].

Section ScriptTallies.

Context {W : Type} (E : Env W) (L : PyLib).

Abbreviation tallies :=
  (sound (@inv W) (@moved W) (@at_exit W) (fun _ _ => True) (@inv W)).

(** A statement that counts keeps the invariant of the tallies. *)
Lemma tallies_step {A} (m : M (St W) A) (k : A -> prog W) :
  counts m -> (forall a, tallies (k a)) -> tallies (Step m k).
Proof.
  intros Hm Hk. apply sound_step with (R := fun _ => @inv W); auto.
  intros s Hs. specialize (Hm s). split; [exact Hm|]. split.
  - now apply tally_step_tallied with (globals s).
  - destruct (fst (m s)) as [[a | e] |]; auto.
    now apply tally_step_tallied with (globals s).
Qed.

Ltac script_tac :=
  repeat first
    [ assumption
    | match goal with
      | |- sound _ _ _ _ _ (Step _ _) =>
          apply tallies_step; [solve [counts_tac] | intros ?]
      | |- sound _ _ _ _ _ (if ?b then _ else _) => destruct b
      end ].

Lemma projects_tallies (proto : pystr) (call : caller W) (k : prog W) :
  tallies k -> tallies (projects L proto call k).
Proof. intros Hk. unfold projects, check_call. script_tac. Qed.

Lemma work_items_read_tallies (proto : pystr) (call : caller W) (k : prog W) :
  tallies k -> tallies (work_items_read L proto call k).
Proof. intros Hk. unfold work_items_read, check_call. script_tac. Qed.

Lemma comments_tallies (proto : pystr) (call : caller W) (wi_id : value)
    (k : prog W) :
  tallies k -> tallies (comments L proto call wi_id k).
Proof. intros Hk. unfold comments, check_call, skip. cbv zeta. script_tac. Qed.

Lemma work_items_write_tallies (proto : pystr) (call : caller W) (k : prog W) :
  tallies k -> tallies (work_items_write L proto call k).
Proof.
  intros Hk. unfold work_items_write, check_call, skip. script_tac.
  now apply comments_tallies.
Qed.

Lemma files_tallies (proto : pystr) (call : caller W) (k : prog W) :
  tallies k -> tallies (files L proto call k).
Proof. intros Hk. unfold files, check_call. script_tac. Qed.

Lemma labels_tallies (proto : pystr) (call : caller W) (k : prog W) :
  tallies k -> tallies (labels E L proto call k).
Proof. intros Hk. unfold labels, check_call, skip. script_tac. Qed.

Lemma members_tallies (proto : pystr) (call : caller W) (k : prog W) :
  tallies k -> tallies (members L proto call k).
Proof. intros Hk. unfold members, check_call. script_tac. Qed.

Lemma sprints_tallies (proto : pystr) (call : caller W) (k : prog W) :
  tallies k -> tallies (sprints L proto call k).
Proof. intros Hk. unfold sprints, check_call, skip. script_tac. Qed.

Lemma proposals_tallies (proto : pystr) (call : caller W) (k : prog W) :
  tallies k -> tallies (proposals L proto call k).
Proof. intros Hk. unfold proposals, check_call. script_tac. Qed.

Lemma search_tallies (proto : pystr) (call : caller W) (k : prog W) :
  tallies k -> tallies (search L proto call k).
Proof. intros Hk. unfold search, check_call. script_tac. Qed.

Lemma for_body_tallies (proto : pystr) (call : caller W) (k : prog W) :
  tallies k -> tallies (for_body E L proto call k).
Proof.
  intros Hk. unfold for_body. apply tallies_step; [counts_tac | intros _].
  apply projects_tallies, work_items_read_tallies, work_items_write_tallies,
    files_tallies, labels_tallies, members_tallies, sprints_tallies,
    proposals_tallies, search_tallies, Hk.
Qed.

(** The summary leaves through [sys.exit] with the code of the [FAIL] it
    has just read. *)
Lemma summary_tallies : tallies (@summary W).
Proof.
  unfold summary.
  assert (Hfinish :
    tallies (Step (print (times (u "=") 60))
               (fun _ =>
                  Step (bind (read_globals W) (fun g => ret (exit_code g)))
                    (fun code => Exit code)))).
  { apply tallies_step; [counts_tac | intros _].
    apply sound_step with (R := fun code s => inv s /\ at_exit code s); auto.
    - intros s Hs. split; [apply tally_step_refl|]. split; [exact Hs|].
      cbn. now split.
    - intros code. apply sound_exit. tauto. }
  cbv zeta.
  do 8 (apply tallies_step; [solve [counts_tac] | intros ?]).
  apply tallies_step; [solve [counts_tac] | intros errors].
  destruct errors; [exact Hfinish|]. script_tac.
Qed.

Lemma main_tallies (fuel : nat) : tallies (main E L fuel).
Proof.
  unfold main, CALLERS. cbn [fold_right fst snd]. script_tac.
  do 3 apply for_body_tallies. apply summary_tallies.
Qed.

End ScriptTallies.

(** ** The tallies and the exit status *)

(** C9: wherever the run stands, after any number [n] of statements,
    [ERRORS] has as many lines as [FAIL] counts; the next statement either
    leaves both as they are or adds one to [FAIL] and one line to
    [ERRORS]; a [check] does the first when it passes and the second when
    it fails, and adding to [SKIP] does the first. *)
Theorem errors_match_fail (W : Type) (E : Env W) (L : PyLib) (fuel : nat)
    (w : W) (n : nat) :
  let g := globals (snd (exec n (main E L fuel) (start w))) in
  let g' := globals (snd (exec (S n) (main E L fuel) (start w))) in
  Z.of_nat (List.length (ERRORS g)) = FAIL g
  /\ ((FAIL g' = FAIL g /\ ERRORS g' = ERRORS g)
      \/ (FAIL g' = FAIL g + 1 /\ exists line, ERRORS g' = ERRORS g ++ [line]))
  /\ (forall proto tool result expect_fn (s : St W),
        let after := globals (snd (check L proto tool result expect_fn s)) in
        if accepts expect_fn result
        then FAIL after = FAIL (globals s) /\ ERRORS after = ERRORS (globals s)
        else FAIL after = FAIL (globals s) + 1
             /\ exists line, ERRORS after = ERRORS (globals s) ++ [line])
  /\ (forall k (s : St W),
        let after := globals (snd (skip k s)) in
        FAIL after = FAIL (globals s) /\ ERRORS after = ERRORS (globals s)).
Proof.
  cbv zeta. pose proof (main_tallies E L fuel) as Hmain.
  assert (Hstart : inv (start w)) by reflexivity.
  split; [exact (exec_invariant _ _ _ _ _ _ Hmain n (start w) Hstart)|].
  split.
  - apply (exec_step _ _ _ _ _ _ (fun s => tally_step_refl (globals s)) Hmain n
             (start w) Hstart).
  - split; [|intros k s; now split].
    intros proto tool result expect_fn s.
    unfold accepts, check, try_, bind, lift, modify_globals, print, ret.
    destruct (expect_fn result) as [ok | e]; cbn -[firstn Str.u app];
      [destruct (Py.truthy ok); cbn -[firstn Str.u app]|];
      try (now split); (split; [reflexivity | now eexists]).
Qed.

Lemma exit_code_cases (g : Globals) :
  tallied g ->
  (exit_code g = 0 <-> FAIL g = 0) /\ (exit_code g = 1 <-> FAIL g <> 0).
Proof.
  unfold tallied, exit_code. intros H.
  destruct (Z.gtb_spec (FAIL g) 0); lia.
Qed.

(** C8: a run that leaves through [sys.exit] does so with status 0 when
    [FAIL] is 0 and with status 1 otherwise; the status is a function of
    [FAIL] alone, whatever [PASS] and [SKIP] are. *)
Theorem exit_status_reflects_failures (W : Type) (E : Env W) (L : PyLib)
    (fuel n : nat) (w : W) (code : Z) (s' : St W) :
  exec n (main E L fuel) (start w) = (Exited code, s') ->
  (code = 0 <-> FAIL (globals s') = 0)
  /\ (code = 1 <-> FAIL (globals s') <> 0)
  /\ (forall passed skipped,
        exit_code {| PASS := passed; FAIL := FAIL (globals s');
                     SKIP := skipped; ERRORS := ERRORS (globals s') |} = code).
Proof.
  intros Hrun. pose proof (main_tallies E L fuel) as Hmain.
  assert (Hstart : inv (start w)) by reflexivity.
  pose proof (exec_exit _ _ _ _ _ _ Hmain n (start w) code s' Hstart Hrun) as Hcode.
  pose proof (exec_invariant _ _ _ _ _ _ Hmain n (start w) Hstart) as Hinv.
  rewrite Hrun in Hinv. cbn [snd] in Hinv. unfold at_exit in Hcode. subst code.
  destruct (exit_code_cases (globals s') Hinv) as [H0 H1].
  split; [exact H0|]. split; [exact H1|]. reflexivity.
Qed.

Lemma exit_status_reflects_failures_witness :
  (0 = 0 <-> FAIL (globals (snd (exec 200 (main Sim.env Sim.lib 4) (start all_well)))) = 0)
  /\ (1 = 1 <-> FAIL (globals (snd (exec 200 (main Sim.env Sim.lib 4) (start refusing)))) <> 0).
Proof.
  split.
  - apply (exit_status_reflects_failures Sim.World Sim.env Sim.lib 4 200 all_well 0
             (snd (exec 200 (main Sim.env Sim.lib 4) (start all_well)))).
    vm_compute. reflexivity.
  - apply (exit_status_reflects_failures Sim.World Sim.env Sim.lib 4 200 refusing 1
             (snd (exec 200 (main Sim.env Sim.lib 4) (start refusing)))).
    vm_compute. reflexivity.
Defined.

(** ** The stop flag *)

Section StopFlag.

Context {W : Type} (E : Env W) (L : PyLib).

(** A payload is only returned after [stop.set()]. *)
Lemma poll_stop (fuel : nat) (deadline : float) (s : Session * W) (v : value) :
  fst (poll E L fuel deadline s) = Some (Ok (Some v)) ->
  stop (fst (snd (poll E L fuel deadline s))) = true.
Proof.
  revert s; induction fuel as [|fuel IH]; intros s; [discriminate|].
  rewrite poll_round. cbv zeta.
  destruct (PrimFloat.ltb _ deadline); [|discriminate].
  destruct (q _) as [|[event_type data] rest]; [apply IH|].
  destruct (type_is event_type (u "message")); [|apply IH].
  destruct (rbind (json_loads L data) (extract L)); [reflexivity | apply IH].
Qed.

(** When [sse_open] raises, [stop] is as [new_session] has it: unset. *)
Lemma sse_stop_unset_when_post_raises (fuel : nat) (tool : pystr) (args : value)
    (w : W) (e : exn) :
  fst (sse_open E tool args (new_session, w)) = Some (Raise e) ->
  stop (fst (snd (sse_session E L fuel tool args (new_session, w)))) = false.
Proof.
  intros Hopen. unfold sse_session. rewrite try_as_state.
  unfold sse_body. unfold bind at 1.
  assert (Hkeep : stop (fst (snd (sse_open E tool args (new_session, w)))) = false).
  { apply (sse_open_keeps E (fun c => stop c = false)); auto.
    intros s. apply stop_listen. }
  destruct (sse_open E tool args (new_session, w)) as [r s]. cbn [fst snd] in *.
  now subst r.
Qed.

End StopFlag.

(** X2: in the two outcomes the loop can end in, a payload delivered and
    the deadline passed, [stop] has been set when the call returns. *)
Theorem sse_stop_set_after_loop (W : Type) (E : Env W) (L : PyLib) (fuel : nat)
    (tool : pystr) (args : value) (w : W) (t0 : float) (s : Session * W) :
  sse_open E tool args (new_session, w) = (Some (Ok t0), s) ->
  fst (sse_session E L fuel tool args (new_session, w)) <> None ->
  stop (fst (snd (sse_session E L fuel tool args (new_session, w)))) = true.
Proof.
  intros Hopen. rewrite (sse_session_opened E L fuel tool args w t0 s Hopen).
  pose proof (poll_stop E L fuel (PrimFloat.add t0 10) s) as Hstop.
  pose proof (poll_never_raises E L fuel (PrimFloat.add t0 10) s) as Hraise.
  destruct (poll E L fuel (PrimFloat.add t0 10) s) as [[[[v |] | e] |] s'];
    cbn [fst snd] in *; intros Hsome.
  - now apply Hstop with v.
  - reflexivity.
  - now destruct (Hraise e).
  - now destruct Hsome.
Qed.

Lemma sse_stop_set_after_loop_witness :
  stop (fst (snd (sse_session Sim.env Sim.lib 4 (u "projects.list") VNone
                    (new_session, answered)))) = true
  /\ stop (fst (snd (sse_session Sim.env_quiet Sim.lib 4 (u "projects.list") VNone
                       (new_session, unanswered)))) = true.
Proof.
  split.
  - apply (sse_stop_set_after_loop Sim.World Sim.env Sim.lib 4 (u "projects.list")
             VNone answered 1000%float
             (snd (sse_open Sim.env (u "projects.list") VNone (new_session, answered))));
      vm_compute; [reflexivity | discriminate].
  - apply (sse_stop_set_after_loop Sim.World Sim.env_quiet Sim.lib 4
             (u "projects.list") VNone unanswered 1000%float
             (snd (sse_open Sim.env_quiet (u "projects.list") VNone
                     (new_session, unanswered))));
      vm_compute; [reflexivity | discriminate].
Defined.

(** ** The normalizer on the envelopes it is written for *)

(** X1: on a mapping whose [result.content] is a list that starts with a
    mapping holding a string under "text", [extract] returns the parsed
    text when [json.loads] accepts it and the text itself when it does
    not. *)
Theorem extract_text (L : PyLib) (d rd item : list (pystr * value))
    (rest : list value) (text : pystr) :
  Py.lookup (u "result") d = Some (VDict rd) ->
  Py.lookup (u "content") rd = Some (VList (VDict item :: rest)) ->
  Py.lookup (u "text") item = Some (VStr text) ->
  extract L (VDict d) =
    match json_loads L text with
    | Ok v => Ok v
    | Raise _ => Ok (VStr text)
    end.
Proof.
  intros Hr Hc Ht. now apply (proj1 (extract_on_envelopes L d)) with rd item rest.
Qed.

Lemma extract_text_witness :
  extract Sim.lib
    (VDict [(u "result",
             VDict [(u "content",
                     VList [VDict [ (u "type", VStr (u "text"));
                                    (u "text", VStr (u "label removed")) ]])])])
  = Ok (VStr (u "label removed")).
Proof.
  apply (extract_text Sim.lib
           [(u "result",
             VDict [(u "content",
                     VList [VDict [ (u "type", VStr (u "text"));
                                    (u "text", VStr (u "label removed")) ]])])]
           [(u "content",
             VList [VDict [ (u "type", VStr (u "text"));
                            (u "text", VStr (u "label removed")) ]])]
           [(u "type", VStr (u "text")); (u "text", VStr (u "label removed"))]
           [] (u "label removed")); reflexivity.
Defined.

(** ** What can end the run early *)

Section Aborts.

Context {W : Type} (E : Env W) (L : PyLib).

Variable bad : exn -> Prop.

Lemma raises_ret {S A} (a : A) : raises_only bad (@ret S A a).
Proof. intros s e H. discriminate. Qed.

Lemma raises_op {S A} (f : S -> A * S) : raises_only bad (op f).
Proof. intros s e. unfold op. now destruct (f s). Qed.

Lemma raises_print (line : pystr) : raises_only bad (@print W line).
Proof. intros s e H. discriminate. Qed.

Lemma raises_read : raises_only bad (read_globals W).
Proof. intros s e H. discriminate. Qed.

Lemma raises_modify (f : Globals -> Globals) : raises_only bad (@modify_globals W f).
Proof. intros s e H. discriminate. Qed.

Lemma raises_get_id (r : value) : raises_only bad (@lift (St W) value (get_id r)).
Proof.
  intros s e. unfold lift, get_id, try_except. cbn [fst].
  now destruct (rbind (Py.item r (u "data")) (fun data => Py.item data (u "id"))).
Qed.

Lemma raises_bind {S A B} (m : M S A) (k : A -> M S B) :
  raises_only bad m -> (forall a, raises_only bad (k a)) ->
  raises_only bad (bind m k).
Proof.
  intros Hm Hk s e. unfold bind. specialize (Hm s).
  destruct (m s) as [[[a | e'] |] s']; cbn [fst] in *.
  - apply Hk.
  - intros H. injection H as <-. now apply Hm.
  - discriminate.
Qed.

Lemma raises_in_world {A} (m : M W A) :
  raises_only bad m -> raises_only bad (@in_world W A m).
Proof.
  intros Hm s e. unfold in_world. specialize (Hm (world s)).
  destruct (m (world s)) as [r w']. exact (Hm e).
Qed.

(** [check] swallows what the predicate raises. *)
Lemma raises_check (proto tool : pystr) (result : value)
    (expect_fn : value -> res value) :
  raises_only bad (@check W L proto tool result expect_fn).
Proof.
  intros s e. unfold check, try_, bind, lift, modify_globals, print, ret.
  destruct (expect_fn result) as [ok | e']; cbn -[firstn Str.u app];
    [destruct (Py.truthy ok); cbn -[firstn Str.u app]|]; discriminate.
Qed.

Lemma raises_print_each (lines : list pystr) : raises_only bad (@print_each W lines).
Proof.
  induction lines as [|line lines IH]; [apply raises_ret|].
  cbn [print_each fold_right]. apply raises_bind; [apply raises_print|].
  intros _. exact IH.
Qed.




End Aborts.

Lemma raises_py_int {S} (x : float) : raises_only int_error (@lift S Z (py_int x)).
Proof. intros s e H. exists x. cbn in H. now injection H. Qed.

Create HintDb abort.

#[local] Hint Resolve raises_ret raises_op raises_print raises_read raises_modify
  raises_get_id raises_in_world raises_check raises_print_each raises_py_int
  : abort.


Section ScriptAborts.

Context {W : Type} (E : Env W) (L : PyLib).

Abbreviation aborts_on_clock :=
  (sound (fun _ : St W => True) (fun _ _ => True) (fun _ _ => True)
     (fun e _ => int_error e) (fun _ => True)).



Variable call : caller W.
Hypothesis call_returns : forall tool args, raises_only int_error (call tool args).


End ScriptAborts.




(** * Further properties *)

(** ** The predicates, by strictness *)

Lemma is_ok_returns (r : value) : exists b, is_ok r = Ok (VBool b).
Proof.
  unfold is_ok. destruct r as [| | | | | |d]; cbn [Py.isinstance_dict];
    try (now eexists).
  unfold Py.get. destruct (Py.lookup (u "code") d); now eexists.
Qed.

(** X4: whatever [has_id] accepts [is_ok] accepts; whatever [is_ok]
    accepts, [ok_or_str] and the predicate of [proposals.get] accept; and
    the predicate of [work_items.get_by_identifier] accepts whatever any
    of the others accepts, plain strings apart, which only [ok_or_str]
    can accept. *)
Theorem predicates_by_strictness (L : PyLib) (r : value) :
  (accepts has_id r = true -> accepts is_ok r = true)
  /\ (accepts is_ok r = true ->
      accepts (ok_or_str L) r = true /\ accepts expect_proposals_get r = true)
  /\ (accepts expect_proposals_get r = true \/ accepts expect_files_upload r = true ->
      accepts expect_get_by_identifier r = true)
  /\ (accepts (ok_or_str L) r = true ->
      accepts is_ok r = true \/ Py.isinstance_str r = true).
Proof.
  destruct (is_ok_returns r) as [b Hb].
  unfold accepts, has_id, ok_or_str. rewrite Hb. cbn [rbind Py.truthy].
  repeat match goal with |- _ /\ _ => split end.
  - destruct b; [reflexivity | intros H; exact H].
  - destruct b; [|discriminate]. intros _. split; [reflexivity|].
    unfold is_ok in Hb. unfold expect_proposals_get.
    destruct r as [| | | | | |d]; cbn [Py.isinstance_dict] in *; try discriminate.
    unfold Py.get in Hb. cbn [Py.contains rbind].
    destruct (Py.lookup (u "code") d); [reflexivity | discriminate].
  - unfold expect_proposals_get, expect_files_upload, expect_get_by_identifier.
    destruct r; cbn [Py.isinstance_dict Py.truthy]; intros [H | H];
      try discriminate; reflexivity.
  - destruct b; [now left|]. destruct r; cbn; intros H; try discriminate.
    now right.
Qed.

(** ** Identifiers *)

(** X5: when [has_id] accepts a result, the identifier [get_id] takes
    from it is the one [has_id] returned, so the steps guarded by that
    identifier run; and [get_id] returns [None], without raising, on a
    result that is not a mapping or has no "data". *)
Theorem get_id_follows_has_id (r v : value) :
  has_id r = Ok v ->
  Py.truthy v = true ->
  get_id r = Ok v
  /\ (forall r', Py.isinstance_dict r' = false -> get_id r' = Ok VNone)
  /\ (forall d, Py.lookup (u "data") d = None -> get_id (VDict d) = Ok VNone).
Proof.
  intros Hhas Hv. split; [|split].
  - unfold has_id in Hhas. destruct (is_ok_returns r) as [b Hb]. rewrite Hb in Hhas.
    cbn [rbind Py.truthy] in Hhas.
    destruct b; [|injection Hhas as <-; discriminate].
    unfold is_ok in Hb.
    destruct r as [| | | | | |d]; cbn [Py.isinstance_dict] in Hb; try discriminate.
    unfold get_id. unfold Py.get at 1 in Hhas. cbn [Py.item].
    destruct (Py.lookup (u "data") d) as [data|].
    + cbn [rbind] in *. unfold Py.get in Hhas.
      destruct data as [| | | | | |dd]; try discriminate. cbn [Py.item].
      destruct (Py.lookup (u "id") dd) as [x|]; injection Hhas as <-;
        [reflexivity | discriminate].
    + cbn in Hhas. injection Hhas as <-. discriminate.
  - intros r' Hr. now destruct r'.
  - intros d Hd. unfold get_id. cbn [Py.item]. now rewrite Hd.
Qed.

Lemma get_id_follows_has_id_witness :
  get_id well = Ok (VStr (u "7")).
Proof.
  apply (get_id_follows_has_id well (VStr (u "7"))); reflexivity.
Defined.

(** ** The output of the child process *)

Lemma lstrip_blank (s : pystr) : forallb Str.isspace s = true -> Str.lstrip s = [].
Proof.
  induction s as [|c s IH]; [reflexivity|]. cbn [forallb Str.lstrip].
  intros H. apply andb_prop in H as [Hc Hs]. rewrite Hc. now apply IH.
Qed.

Lemma strip_blank (s : pystr) : forallb Str.isspace s = true -> Str.strip s = [].
Proof. intros H. unfold Str.strip. now rewrite lstrip_blank. Qed.

(** X6: output that is empty or all blanks gives
    [{"error": "no JSON output"}]. *)
Theorem stdio_call_blank_output (W : Type) (E : Env W) (L : PyLib)
    (tool : pystr) (args : value) (w : W) (proc : CompletedProcess) :
  fst (subprocess_run E [MCP_BIN; u "--transport"; u "stdio"]
         (json_dumps L (envelope tool args)) stdio_environ w) = Ok proc ->
  forallb Str.isspace (proc_stdout proc) = true ->
  fst (stdio_call E L tool args w) = Some (Ok (error_result (u "no JSON output"))).
Proof.
  intros Hrun Hblank. rewrite stdio_call_run, Hrun, (strip_blank _ Hblank).
  reflexivity.
Qed.

Lemma stdio_call_blank_output_witness :
  fst (stdio_call Sim.env Sim.lib (u "projects.list") VNone mute)
  = Some (Ok (error_result (u "no JSON output"))).
Proof.
  apply (stdio_call_blank_output Sim.World Sim.env Sim.lib (u "projects.list")
           VNone mute {| proc_stdout := u "  " ++ nl ++ u " " |}); reflexivity.
Defined.

Lemma scan_lines_skips (L : PyLib) (pre lines : list pystr) :
  Forall (fun line => Str.startswith (Str.strip line) (u "{") = false) pre ->
  scan_lines L (pre ++ lines) = scan_lines L lines.
Proof.
  induction 1 as [|line pre Hline _ IH]; [reflexivity|].
  cbn [app scan_lines]. now rewrite Hline.
Qed.

(** X7: the first output line that starts with a brace, once stripped,
    decides the result of [stdio_call]: the lines before it are passed
    over, the lines after it are never looked at, and when it does not
    parse the result is the error result of the parser. *)
Theorem stdio_call_first_brace_line (W : Type) (E : Env W) (L : PyLib)
    (tool : pystr) (args : value) (w : W) (proc : CompletedProcess)
    (pre : list pystr) (line : pystr) (rest : list pystr) :
  fst (subprocess_run E [MCP_BIN; u "--transport"; u "stdio"]
         (json_dumps L (envelope tool args)) stdio_environ w) = Ok proc ->
  Str.split_lines (Str.strip (proc_stdout proc)) = pre ++ line :: rest ->
  Forall (fun l => Str.startswith (Str.strip l) (u "{") = false) pre ->
  Str.startswith (Str.strip line) (u "{") = true ->
  fst (stdio_call E L tool args w) =
    Some (Ok match rbind (json_loads L (Str.strip line)) (extract L) with
             | Ok v => v
             | Raise e => error_result (exn_str e)
             end).
Proof.
  intros Hrun Hlines Hpre Hline.
  rewrite stdio_call_run, Hrun, Hlines, (scan_lines_skips L pre _ Hpre).
  cbn [scan_lines]. now rewrite Hline.
Qed.

Lemma stdio_call_first_brace_line_witness :
  fst (stdio_call Sim.env Sim.lib (u "projects.list") VNone chatty)
  = Some (Ok (VDict [(u "code", VInt 0)])).
Proof.
  apply (stdio_call_first_brace_line Sim.World Sim.env Sim.lib (u "projects.list")
           VNone chatty
           {| proc_stdout :=
                u "starting mcp-server" ++ nl
                  ++ Sim.json "{'code': 0}" ++ nl
                  ++ Sim.json "{'code': 1}" ++ nl |}
           [u "starting mcp-server"] (Sim.json "{'code': 0}")
           [Sim.json "{'code': 1}"]);
    try reflexivity.
  repeat constructor.
Defined.

(** ** The listener thread *)

Section ListenerQueue.

Context {W : Type} (E : Env W).

Lemma listen_line_queue (event_type : option pystr) (line : pystr) (c : Session) :
  exists l,
    q (listen_line event_type line c) = q c ++ l
    /\ ready (listen_line event_type line c) = ready c || existsb announces l
    /\ stop (listen_line event_type line c) = stop c.
Proof.
  unfold listen_line.
  destruct (Str.startswith line (u "event:")).
  { exists []. cbn. now rewrite app_nil_r, orb_false_r. }
  destruct (Str.startswith line (u "data:")).
  { exists [(event_type, Str.strip (skipn 5 line))].
    unfold announces. cbn [existsb fst].
    destruct (type_is event_type (u "endpoint")); cbn;
      now rewrite ?orb_true_r, ?orb_false_r. }
  exists []. destruct (Str.eqb line []); cbn; now rewrite app_nil_r, orb_false_r.
Qed.

Lemma listen_step_queue (s : Session * W) :
  exists l,
    q (fst (listen_step E s)) = q (fst s) ++ l
    /\ ready (fst (listen_step E s)) = ready (fst s) || existsb announces l
    /\ stop (fst (listen_step E s)) = stop (fst s)
    /\ (stop (fst s) = true -> l = []).
Proof.
  destruct s as [c w]. unfold listen_step.
  destruct (t c) eqn:Ht; cbn [fst];
    try (exists []; cbn; rewrite app_nil_r, orb_false_r; now auto).
  - destruct (requests_get E (MCP_HTTP ++ u "/sse") w) as [[? | ?] w'];
      exists []; cbn; rewrite app_nil_r, orb_false_r; now auto.
  - destruct (iter_lines E w) as [[item|] w'];
      [|exists []; cbn; rewrite app_nil_r, orb_false_r; now auto].
    destruct (stop c) eqn:Hstop;
      [exists []; cbn; rewrite app_nil_r, orb_false_r; now auto|].
    destruct item as [line|]; cbn [fst].
    + destruct (listen_line_queue event_type line c) as (l & Hq & Hr & Hs).
      exists l. rewrite Hstop in Hs. repeat split; try assumption. discriminate.
    + exists []. cbn. rewrite app_nil_r, orb_false_r. now auto.
Qed.

Lemma listen_queue (n : nat) (s : Session * W) :
  exists l,
    q (fst (listen E n s)) = q (fst s) ++ l
    /\ ready (fst (listen E n s)) = ready (fst s) || existsb announces l
    /\ stop (fst (listen E n s)) = stop (fst s)
    /\ (stop (fst s) = true -> l = []).
Proof.
  revert s. induction n as [|n IH]; intros s.
  - exists []. cbn. now rewrite app_nil_r, orb_false_r.
  - cbn [listen].
    destruct (listen_step_queue s) as (l1 & Hq1 & Hr1 & Hs1 & Hn1).
    destruct (IH (listen_step E s)) as (l2 & Hq2 & Hr2 & Hs2 & Hn2).
    exists (l1 ++ l2). rewrite Hq2, Hr2, Hs2, Hq1, Hr1, Hs1.
    rewrite existsb_app, app_assoc, orb_assoc. repeat split.
    intros Hstop. rewrite Hs1 in Hn2. now rewrite Hn1, Hn2.
Qed.

End ListenerQueue.


Lemma startswith_app (p s : pystr) : Str.startswith (p ++ s) p = true.
Proof.
  induction p as [|c p IH]; [now destruct s|].
  cbn [app Str.startswith]. now rewrite N.eqb_refl.
Qed.

(** X9: an [event:] line followed by a [data:] line puts one event in
    the queue, the name and the data stripped of the blanks around them;
    [ready] is set when the name is "endpoint"; the next event starts
    without a type. *)
Theorem listener_reads_event (W : Type) (E : Env W) (c : Session) (w w1 w2 : W)
    (pending : option pystr) (name data : pystr) :
  t c = Reading pending ->
  stop c = false ->
  iter_lines E w = (Some (Some (u "event:" ++ name)), w1) ->
  iter_lines E w1 = (Some (Some (u "data:" ++ data)), w2) ->
  let c' := fst (listen E 2 (c, w)) in
  q c' = q c ++ [(Some (Str.strip name), Str.strip data)]
  /\ ready c' = ready c || Str.eqb (Str.strip name) (u "endpoint")
  /\ t c' = Reading None
  /\ snd (listen E 2 (c, w)) = w2.
Proof.
  intros Ht Hstop H1 H2.
  assert (Hevent : listen_step E (c, w)
                   = (with_t (Reading (Some (Str.strip name))) c, w1)).
  { unfold listen_step. rewrite Ht, H1, Hstop. unfold listen_line.
    now rewrite startswith_app. }
  assert (Hdata : forall c0, t c0 = Reading (Some (Str.strip name)) ->
                  stop c0 = false ->
                  listen_step E (c0, w1)
                  = (with_t (Reading None)
                       (let c1 := with_q (q c0 ++ [(Some (Str.strip name),
                                                    Str.strip data)]) c0 in
                        if Str.eqb (Str.strip name) (u "endpoint")
                        then with_ready true c1 else c1), w2)).
  { intros c0 Ht0 Hstop0. unfold listen_step. rewrite Ht0, H2, Hstop0.
    unfold listen_line.
    change (Str.startswith (u "data:" ++ data) (u "event:")) with false.
    now rewrite startswith_app. }
  cbn [listen]. rewrite Hevent, Hdata by (cbn; auto).
  destruct (Str.eqb (Str.strip name) (u "endpoint")); cbn;
    rewrite ?orb_true_r, ?orb_false_r; repeat split.
Qed.

Lemma listener_reads_event_witness :
  let c' := fst (listen Sim.env 2 (with_t (Reading None) new_session, padded)) in
  q c' = [(Some (u "endpoint"), u "/messages?session=1")]
  /\ ready c' = true
  /\ t c' = Reading None
  /\ snd (listen Sim.env 2 (with_t (Reading None) new_session, padded))
     = {| Sim.clock := 1000; Sim.http := []; Sim.proc := []; Sim.stream := [] |}.
Proof.
  apply (listener_reads_event Sim.World Sim.env (with_t (Reading None) new_session)
           padded
           {| Sim.clock := 1000; Sim.http := []; Sim.proc := [];
              Sim.stream := [Some (u "data:   /messages?session=1  ")] |}
           {| Sim.clock := 1000; Sim.http := []; Sim.proc := []; Sim.stream := [] |}
           None (u "  endpoint ") (u "   /messages?session=1  "));
    vm_compute; reflexivity.
Defined.

(** X10: the queue is first in, first out across the two threads: an
    event already queued when [q.get] is called is the one it returns,
    whatever the listener adds in the meantime, and only that event
    leaves the queue. *)
Theorem q_get_oldest_first (W : Type) (E : Env W) (timeout : Z)
    (s : Session * W) (e : event) (rest : list event) :
  q (fst s) = e :: rest ->
  fst (q_get E timeout s) = Some (Ok e)
  /\ exists l, q (fst (snd (q_get E timeout s))) = rest ++ l.
Proof.
  intros Hq. destruct s as [c w]. unfold q_get, bind, meanwhile.
  destruct (sched E timeout w) as [n w'].
  destruct (listen_queue E n (c, w')) as (l & Hl & _).
  cbn [fst] in Hl, Hq. rewrite Hq in Hl. cbn [app] in Hl.
  rewrite Hl. cbn. split; [reflexivity | now exists l].
Qed.

Lemma q_get_oldest_first_witness :
  fst (q_get Sim.env 2
         (with_t (Reading None) (with_q [(None, u "first")] new_session), padded))
  = Some (Ok (None, u "first"))
  /\ exists l,
       q (fst (snd (q_get Sim.env 2
                      (with_t (Reading None) (with_q [(None, u "first")] new_session),
                       padded))))
       = [] ++ l.
Proof.
  apply (q_get_oldest_first Sim.World Sim.env 2
           (with_t (Reading None) (with_q [(None, u "first")] new_session), padded)
           (None, u "first") []).
  reflexivity.
Defined.

(** ** What the tallies add up to *)

Section Weakening.

Context {W : Type} (I : St W -> Prop) (T : St W -> St W -> Prop)
  (Q : Z -> St W -> Prop) (C : exn -> St W -> Prop).

Lemma sound_weaken (P P' : St W -> Prop) (p : prog W) :
  sound I T Q C P p -> (forall s, P' s -> P s) -> sound I T Q C P' p.
Proof.
  intros Hp Hsub. destruct Hp as [P code Hexit | P A m k R HP Hm Hk].
  - apply sound_exit. auto.
  - apply sound_step with (R := R); auto.
Qed.

End Weakening.

Section Additions.

Context {W : Type} (L : PyLib).

Lemma adds_ret {A} (a : A) : adds 0 0 (@ret (St W) A a).
Proof. intros s b _. cbn. lia. Qed.

Lemma adds_lift {A} (r : res A) : adds 0 0 (@lift (St W) A r).
Proof. intros s b _. cbn. lia. Qed.

Lemma adds_print (line : pystr) : adds 0 0 (@print W line).
Proof. intros s b _. cbn. lia. Qed.

Lemma adds_read : adds 0 0 (read_globals W).
Proof. intros s b _. cbn. lia. Qed.

Lemma adds_in_world {A} (m : M W A) : adds 0 0 (in_world m).
Proof. intros s b _. unfold in_world. destruct (m (world s)). cbn. lia. Qed.

Lemma adds_skip (n : Z) : adds 0 n (@skip W n).
Proof. intros s b _. cbn. lia. Qed.

Lemma adds_bind {A B} (c k : Z) (m : M (St W) A) (f : A -> M (St W) B) :
  adds 0 0 m -> (forall a, adds c k (f a)) -> adds c k (bind m f).
Proof.
  intros Hm Hf s b. unfold bind. specialize (Hm s).
  destruct (m s) as [[[a | e] |] s1]; cbn [fst snd] in *; try discriminate.
  intros Hb. specialize (Hm a eq_refl). specialize (Hf a s1 b Hb). lia.
Qed.

Lemma adds_check (proto tool : pystr) (result : value)
    (expect_fn : value -> res value) :
  adds 1 0 (@check W L proto tool result expect_fn).
Proof.
  intros s b _. unfold check, try_, bind, lift, modify_globals, print, ret.
  destruct (expect_fn result) as [ok | e]; cbn -[firstn Str.u app];
    [destruct (Py.truthy ok); cbn -[firstn Str.u app]|]; lia.
Qed.

Lemma adds_print_each (lines : list pystr) : adds 0 0 (@print_each W lines).
Proof.
  induction lines as [|line lines IH]; [apply adds_ret|].
  cbn [print_each fold_right]. apply adds_bind; [apply adds_print|].
  intros _. exact IH.
Qed.

End Additions.

Ltac adds_tac :=
  first
    [ apply adds_check | apply adds_skip | apply adds_ret | apply adds_lift
    | apply adds_print | apply adds_read | apply adds_in_world
    | apply adds_print_each
    | apply adds_bind; [adds_tac | intros ?; adds_tac] ].

Section ScriptAccounts.

Context {W : Type} (E : Env W) (L : PyLib).

Abbreviation accounts :=
  (sound (fun _ : St W => True) (fun _ _ : St W => True) (@complete W)
     (fun _ _ => True)).

Lemma accounts_step {A} (c k lc hc lt ht : Z) (m : M (St W) A) (f : A -> prog W) :
  adds c k m ->
  0 <= c -> 0 <= k ->
  (forall a, accounts (within (lc + c) (hc + c) (lt + c + k) (ht + c + k)) (f a)) ->
  accounts (within lc hc lt ht) (Step m f).
Proof.
  intros Hm Hc Hk Hf.
  apply sound_step
    with (R := fun _ => within (lc + c) (hc + c) (lt + c + k) (ht + c + k)); auto.
  intros s Hs. split; [exact I|]. split; [exact I|].
  destruct (fst (m s)) as [[a | e] |] eqn:Hr; auto.
  specialize (Hm s a Hr). unfold within, span in *. lia.
Qed.

Lemma accounts_weaken (lc hc lt ht lc' hc' lt' ht' : Z) (p : prog W) :
  accounts (within lc hc lt ht) p ->
  lc <= lc' -> hc' <= hc -> lt <= lt' -> ht' <= ht ->
  accounts (within lc' hc' lt' ht') p.
Proof.
  intros Hp H1 H2 H3 H4. apply sound_weaken with (P := within lc hc lt ht); auto.
  intros s. unfold within, span. lia.
Qed.

Ltac accounts_tac Hk :=
  repeat first
    [ match goal with
      | |- sound _ _ _ _ _ (Step _ _) =>
          eapply accounts_step; [solve [adds_tac] | lia | lia | intros ?]
      | |- sound _ _ _ _ _ (if ?b then _ else _) => destruct b
      end
    | solve [eapply accounts_weaken; [exact Hk | lia | lia | lia | lia]] ].

Section Sections.

Variables (proto : pystr) (call : caller W) (k : prog W) (lc hc lt ht : Z).

Lemma projects_accounts :
  accounts (within (lc + 2) (hc + 2) (lt + 2) (ht + 2)) k ->
  accounts (within lc hc lt ht) (projects L proto call k).
Proof. intros Hk. unfold projects, check_call. accounts_tac Hk. Qed.

Lemma work_items_read_accounts :
  accounts (within (lc + 4) (hc + 4) (lt + 4) (ht + 4)) k ->
  accounts (within lc hc lt ht) (work_items_read L proto call k).
Proof. intros Hk. unfold work_items_read, check_call. accounts_tac Hk. Qed.

(** With the identifier of the work item, nine more tools are checked, or
    eight and one counted as skipped; without it, ten are counted as
    skipped. *)
Lemma work_items_write_accounts :
  accounts (within (lc + 1) (hc + 10) (lt + 10) (ht + 11)) k ->
  accounts (within lc hc lt ht) (work_items_write L proto call k).
Proof.
  intros Hk. unfold work_items_write, comments, check_call. cbv zeta.
  accounts_tac Hk.
Qed.

Lemma files_accounts :
  accounts (within (lc + 1) (hc + 1) (lt + 1) (ht + 1)) k ->
  accounts (within lc hc lt ht) (files L proto call k).
Proof. intros Hk. unfold files, check_call. accounts_tac Hk. Qed.

Lemma labels_accounts :
  accounts (within (lc + 3) (hc + 5) (lt + 5) (ht + 5)) k ->
  accounts (within lc hc lt ht) (labels E L proto call k).
Proof. intros Hk. unfold labels, check_call. accounts_tac Hk. Qed.

Lemma members_accounts :
  accounts (within (lc + 1) (hc + 1) (lt + 1) (ht + 1)) k ->
  accounts (within lc hc lt ht) (members L proto call k).
Proof. intros Hk. unfold members, check_call. accounts_tac Hk. Qed.

Lemma sprints_accounts :
  accounts (within (lc + 2) (hc + 4) (lt + 4) (ht + 4)) k ->
  accounts (within lc hc lt ht) (sprints L proto call k).
Proof. intros Hk. unfold sprints, check_call. accounts_tac Hk. Qed.

Lemma proposals_accounts :
  accounts (within (lc + 2) (hc + 2) (lt + 2) (ht + 2)) k ->
  accounts (within lc hc lt ht) (proposals L proto call k).
Proof. intros Hk. unfold proposals, check_call. accounts_tac Hk. Qed.

Lemma search_accounts :
  accounts (within (lc + 1) (hc + 1) (lt + 1) (ht + 1)) k ->
  accounts (within lc hc lt ht) (search L proto call k).
Proof. intros Hk. unfold search, check_call. accounts_tac Hk. Qed.

End Sections.

(** One round of the loop: 30 tools, or 31 counted when the write tests
    are skipped; at least 17 of them checked. *)
Lemma for_body_accounts (proto : pystr) (call : caller W) (k : prog W)
    (lc hc lt ht : Z) :
  accounts (within (lc + 17) (hc + 30) (lt + 30) (ht + 31)) k ->
  accounts (within lc hc lt ht) (for_body E L proto call k).
Proof.
  intros Hk. unfold for_body.
  eapply accounts_step; [solve [adds_tac] | lia | lia | intros _].
  apply projects_accounts, work_items_read_accounts, work_items_write_accounts,
    files_accounts, labels_accounts, members_accounts, sprints_accounts,
    proposals_accounts, search_accounts.
  eapply accounts_weaken; [exact Hk | lia | lia | lia | lia].
Qed.

Lemma summary_accounts : accounts (within 51 90 90 93) (@summary W).
Proof.
  assert (Hend : forall lc hc lt ht code,
            51 <= lc -> hc <= 90 -> 90 <= lt -> ht <= 93 ->
            accounts (within lc hc lt ht) (Exit code)).
  { intros lc hc lt ht code H1 H2 H3 H4. apply sound_exit. intros s Hs.
    split; [exact I|]. unfold complete, within, span in *. lia. }
  unfold summary. cbv zeta.
  do 9 (eapply accounts_step; [solve [adds_tac] | lia | lia | intros ?]).
  match goal with |- sound _ _ _ _ _ (match ?x with _ => _ end) => destruct x end;
    repeat (eapply accounts_step; [solve [adds_tac] | lia | lia | intros ?]);
    apply Hend; lia.
Qed.

Lemma main_accounts (fuel : nat) : accounts (within 0 0 0 0) (main E L fuel).
Proof.
  unfold main, CALLERS. cbn [fold_right fst snd].
  do 4 (eapply accounts_step; [solve [adds_tac] | lia | lia | intros ?]).
  do 3 apply for_body_accounts.
  eapply accounts_weaken; [apply summary_accounts | lia | lia | lia | lia].
Qed.

End ScriptAccounts.

(** X11: in a run that reaches [sys.exit], between 51 and 90 checks have
    been counted in [PASS] and [FAIL], [SKIP] is between 0 and 42, and
    the three together are between 90 and 93: 30 tools for each of the
    three protocols, and one more for each protocol whose write tests
    were skipped, where [SKIP] grows by 10 for the 9 checks left out.
    With nothing skipped the checks are 90. *)
Theorem tallies_cover_the_tools (W : Type) (E : Env W) (L : PyLib)
    (fuel n : nat) (w : W) (code : Z) (s' : St W) :
  exec n (main E L fuel) (start w) = (Exited code, s') ->
  let g := globals s' in
  0 <= PASS g /\ 0 <= FAIL g
  /\ 51 <= PASS g + FAIL g <= 90
  /\ 0 <= SKIP g <= 42
  /\ 90 <= PASS g + FAIL g + SKIP g <= 93
  /\ (SKIP g = 0 -> PASS g + FAIL g = 90).
Proof.
  intros Hrun. pose proof (main_accounts E L fuel) as Hmain.
  assert (Hstart : within 0 0 0 0 (start w)) by (unfold within, span; cbn; lia).
  pose proof (exec_exit _ _ _ _ _ _ Hmain n (start w) code s' Hstart Hrun) as H.
  unfold complete, within, span in H. cbv zeta. lia.
Qed.

Lemma tallies_cover_the_tools_witness :
  let g := globals (snd (exec 200 (main Sim.env Sim.lib 4) (start refusing))) in
  0 <= PASS g /\ 0 <= FAIL g
  /\ 51 <= PASS g + FAIL g <= 90
  /\ 0 <= SKIP g <= 42
  /\ 90 <= PASS g + FAIL g + SKIP g <= 93
  /\ (SKIP g = 0 -> PASS g + FAIL g = 90).
Proof.
  apply (tallies_cover_the_tools Sim.World Sim.env Sim.lib 4 200 refusing 1
           (snd (exec 200 (main Sim.env Sim.lib 4) (start refusing)))).
  vm_compute. reflexivity.
Defined.

(** ** The pass rate *)

Lemma pass_rate_span (g : Globals) :
  span 51 90 90 93 g ->
  PASS g + FAIL g <> 0
  /\ pass_rate g = PASS g * 100 / (PASS g + FAIL g)
  /\ 0 <= pass_rate g <= 100
  /\ (pass_rate g = 100 <-> FAIL g = 0)
  /\ (pass_rate g = 0 <-> PASS g = 0).
Proof.
  unfold span, pass_rate. intros H.
  destruct (Z.eqb_spec (PASS g + FAIL g) 0) as [H0 | H0]; [lia|].
  pose proof (Z.div_mod (PASS g * 100) (PASS g + FAIL g) H0) as Hdiv.
  pose proof (Z.mod_pos_bound (PASS g * 100) (PASS g + FAIL g)) as Hmod.
  set (rate := PASS g * 100 / (PASS g + FAIL g)) in *.
  set (r := (PASS g * 100) mod (PASS g + FAIL g)) in *.
  repeat match goal with |- _ /\ _ => split end; try reflexivity; nia.
Qed.

(** X12: in a run that reaches [sys.exit] the rate printed is never the 0
    of the guard against a division by zero, for at least 51 checks have
    been counted; it lies between 0 and 100; it is 100 exactly when the
    exit status is 0, and 0 exactly when no check has passed. *)
Theorem pass_rate_at_exit (W : Type) (E : Env W) (L : PyLib)
    (fuel n : nat) (w : W) (code : Z) (s' : St W) :
  exec n (main E L fuel) (start w) = (Exited code, s') ->
  let g := globals s' in
  PASS g + FAIL g <> 0
  /\ pass_rate g = PASS g * 100 / (PASS g + FAIL g)
  /\ 0 <= pass_rate g <= 100
  /\ (pass_rate g = 100 <-> code = 0)
  /\ (pass_rate g = 0 <-> PASS g = 0).
Proof.
  intros Hrun. cbv zeta.
  assert (Hspan : span 51 90 90 93 (globals s')).
  { assert (Hstart : within 0 0 0 0 (start w)) by (unfold within, span; cbn; lia).
    exact (exec_exit _ _ _ _ _ _ (main_accounts E L fuel) n (start w) code s'
             Hstart Hrun). }
  assert (Hcode : code = 0 <-> FAIL (globals s') = 0).
  { pose proof (main_tallies E L fuel) as Hmain.
    assert (Hstart : inv (start w)) by reflexivity.
    pose proof (exec_exit _ _ _ _ _ _ Hmain n (start w) code s' Hstart Hrun) as Hc.
    pose proof (exec_invariant _ _ _ _ _ _ Hmain n (start w) Hstart) as Hinv.
    rewrite Hrun in Hinv. cbn [snd] in Hinv. unfold at_exit in Hc. subst code.
    exact (proj1 (exit_code_cases (globals s') Hinv)). }
  destruct (pass_rate_span (globals s') Hspan) as (H1 & H2 & H3 & H4 & H5).
  rewrite Hcode. auto.
Qed.

Lemma pass_rate_at_exit_witness :
  let g := globals (snd (exec 200 (main Sim.env Sim.lib 4) (start all_well))) in
  PASS g + FAIL g <> 0
  /\ pass_rate g = PASS g * 100 / (PASS g + FAIL g)
  /\ 0 <= pass_rate g <= 100
  /\ (pass_rate g = 100 <-> 0 = 0)
  /\ (pass_rate g = 0 <-> PASS g = 0).
Proof.
  apply (pass_rate_at_exit Sim.World Sim.env Sim.lib 4 200 all_well 0
           (snd (exec 200 (main Sim.env Sim.lib 4) (start all_well)))).
  vm_compute. reflexivity.
Defined.

(** ** What is created is deleted *)

Section Exits.

Context {W : Type} (Q : St W -> Prop).

Lemma exits_exit (P : St W -> Prop) (code : Z) :
  (forall s, P s -> Q s) -> exits Q P (Exit code).
Proof.
  intros H n s c s' Hs He.
  assert (K : exec n (Exit code) s = (Exited code, s)) by now destruct n.
  rewrite K in He. injection He as _ <-. auto.
Qed.

Lemma exits_step {A} (P : St W -> Prop) (R : A -> St W -> Prop)
    (m : M (St W) A) (k : A -> prog W) :
  (forall s a s', P s -> m s = (Some (Ok a), s') -> R a s') ->
  (forall a, exits Q (R a) (k a)) ->
  exits Q P (Step m k).
Proof.
  intros Hm Hk n s c s' Hs He. destruct n as [|n]; [discriminate|].
  cbn [exec] in He. destruct (m s) as [[[a | e] |] s1] eqn:Hr; try discriminate.
  apply (Hk a n s1 c s'); [|exact He]. now apply (Hm s a s1).
Qed.

Lemma exits_lift {A} (P : St W -> Prop) (r : res A) (k : A -> prog W) :
  (forall a, r = Ok a -> exits Q P (k a)) -> exits Q P (Step (lift r) k).
Proof.
  intros Hk n s c s' Hs He. destruct n as [|n]; [discriminate|].
  cbn [exec] in He. unfold lift in He. destruct r as [a | e]; [|discriminate].
  now apply (Hk a eq_refl n s c s').
Qed.

End Exits.

Lemma app_tail_split {A} (log pre post : list A) (c c0 : A) :
  log ++ [c] = pre ++ c0 :: post ->
  (post = [] /\ pre = log /\ c0 = c)
  \/ (exists post', post = post' ++ [c] /\ log = pre ++ c0 :: post').
Proof.
  intros H. induction post as [|x post _] using rev_ind.
  - left. apply app_inj_tail in H as [-> ->]. auto.
  - right. exists post.
    change (pre ++ c0 :: post ++ [x]) with (pre ++ (c0 :: post) ++ [x]) in H.
    rewrite app_assoc in H. apply app_inj_tail in H as [-> ->]. auto.
Qed.

Lemma leaves_other (c : Call) : cleanup_of (call_tool c) = None -> leaves c = None.
Proof. unfold leaves. now intros ->. Qed.

Lemma leaves_created (tool : pystr) (args r : value) (del key : pystr) (id : value) :
  cleanup_of tool = Some (del, key) ->
  get_id r = Ok id ->
  leaves {| call_tool := tool; call_args := args; call_result := r |}
  = if Py.truthy id then Some (del, VDict [(key, id)]) else None.
Proof. unfold leaves. cbn [call_tool call_result]. now intros -> ->. Qed.

(** The record grows by a call: what the call leaves is owed from then
    on. *)
Lemma owing_call (pend : list (pystr * value)) (log : list Call) (c : Call) :
  owing pend log -> owing (pend_of (leaves c) ++ pend) (log ++ [c]).
Proof.
  intros H pre c0 post d Hlog Hd.
  destruct (app_tail_split log pre post c c0 Hlog) as [(-> & -> & ->) | (post' & -> & ->)].
  - right. rewrite Hd. now left.
  - destruct (H pre c0 post' d eq_refl Hd) as [Hin | Hin].
    + left. rewrite map_app. apply in_or_app. now left.
    + right. apply in_or_app. now right.
Qed.

(** The record grows by the call that was owed first. *)
Lemma owing_done (pend : list (pystr * value)) (log : list Call) (c : Call) :
  leaves c = None ->
  owing (asked c :: pend) log -> owing pend (log ++ [c]).
Proof.
  intros Hc H pre c0 post d Hlog Hd.
  destruct (app_tail_split log pre post c c0 Hlog) as [(-> & -> & ->) | (post' & -> & ->)].
  - congruence.
  - destruct (H pre c0 post' d eq_refl Hd) as [Hin | [<- | Hin]].
    + left. rewrite map_app. apply in_or_app. now left.
    + left. rewrite map_app. apply in_or_app. right. now left.
    + now right.
Qed.

Section Silence.

Context {W : Type} (E : Env W) (L : PyLib).

Lemma silent_ret {A} (a : A) : silent (@ret (St (Recorded W)) A a).
Proof. intros s. reflexivity. Qed.

Lemma silent_lift {A} (r : res A) : silent (@lift (St (Recorded W)) A r).
Proof. intros s. reflexivity. Qed.

Lemma silent_print (line : pystr) : silent (@print (Recorded W) line).
Proof. intros s. reflexivity. Qed.

Lemma silent_read : silent (read_globals (Recorded W)).
Proof. intros s. reflexivity. Qed.

Lemma silent_skip (n : Z) : silent (@skip (Recorded W) n).
Proof. intros s. reflexivity. Qed.

Lemma silent_modify (f : Globals -> Globals) :
  silent (@modify_globals (Recorded W) f).
Proof. intros s. reflexivity. Qed.

Lemma silent_bind {A B} (m : M (St (Recorded W)) A) (f : A -> M (St (Recorded W)) B) :
  silent m -> (forall a, silent (f a)) -> silent (bind m f).
Proof.
  intros Hm Hf s. unfold bind. specialize (Hm s).
  destruct (m s) as [[[a | e] |] s1]; cbn [snd] in *; try exact Hm.
  now rewrite Hf.
Qed.

Lemma silent_check (proto tool : pystr) (result : value)
    (expect_fn : value -> res value) :
  silent (@check (Recorded W) L proto tool result expect_fn).
Proof.
  intros s. unfold check, try_, bind, lift, modify_globals, print, ret.
  destruct (expect_fn result) as [ok | e]; cbn -[firstn Str.u app];
    [destruct (Py.truthy ok); cbn -[firstn Str.u app]|]; reflexivity.
Qed.

Lemma silent_time : silent (in_world (op (time_time (aside E)))).
Proof.
  intros s. unfold in_world, op. cbn [time_time aside]. unfold aside_op.
  now destruct (time_time E (fst (world s))).
Qed.

Lemma silent_print_each (lines : list pystr) :
  silent (@print_each (Recorded W) lines).
Proof.
  induction lines as [|line lines IH]; [apply silent_ret|].
  cbn [print_each fold_right]. apply silent_bind; [apply silent_print|].
  intros _. exact IH.
Qed.

End Silence.

Ltac silent_tac :=
  first
    [ apply silent_check | apply silent_skip | apply silent_ret | apply silent_lift
    | apply silent_print | apply silent_read | apply silent_time
    | apply silent_print_each
    | apply silent_bind; [silent_tac | intros ?; silent_tac] ].

Section Cleanup.

Context {W : Type} (E : Env W) (L : PyLib).

Abbreviation cleans :=
  (exits (fun s : St (Recorded W) => owing [] (snd (world s)))).

Lemma cleans_silent {A} (pend : list (pystr * value))
    (m : M (St (Recorded W)) A) (k : A -> prog (Recorded W)) :
  silent m ->
  (forall a, cleans (owes pend) (k a)) ->
  cleans (owes pend) (Step m k).
Proof.
  intros Hm Hk. apply exits_step with (R := fun _ => owes pend); [|exact Hk].
  intros s a s' Hs Hr. unfold owes in *. specialize (Hm s). rewrite Hr in Hm.
  cbn [snd] in Hm. now rewrite Hm.
Qed.

Lemma recording_run (call : caller W) (tool : pystr) (args r : value)
    (s s' : St (Recorded W)) :
  in_world (recording call tool args) s = (Some (Ok r), s') ->
  snd (world s')
  = snd (world s)
      ++ [{| call_tool := tool; call_args := args; call_result := r |}].
Proof.
  unfold in_world, recording.
  destruct (call tool args (fst (world s))) as [[[v | e] |] w']; intros H;
    try discriminate.
  now injection H as -> <-.
Qed.

(** A call whose result the script keeps. *)
Lemma cleans_call (pend : list (pystr * value)) (call : caller W)
    (tool : pystr) (args : value) (k : value -> prog (Recorded W)) :
  (forall r,
      cleans (owes (pend_of (leaves {| call_tool := tool; call_args := args;
                                       call_result := r |}) ++ pend)) (k r)) ->
  cleans (owes pend) (Step (in_world (recording call tool args)) k).
Proof.
  intros Hk.
  apply exits_step
    with (R := fun r => owes (pend_of (leaves {| call_tool := tool; call_args := args;
                                                 call_result := r |}) ++ pend));
    [|exact Hk].
  intros s r s' Hs Hr. unfold owes in *. rewrite (recording_run _ _ _ _ _ _ Hr).
  now apply owing_call.
Qed.

Lemma check_call_run (call : caller W) (proto tool : pystr) (args ok : value)
    (expect_fn : value -> res value) (s s' : St (Recorded W)) :
  check_call L proto (recording call) tool args expect_fn s = (Some (Ok ok), s') ->
  exists r,
    snd (world s')
    = snd (world s)
        ++ [{| call_tool := tool; call_args := args; call_result := r |}].
Proof.
  unfold check_call, bind. intros H.
  destruct (in_world (recording call tool args) s) as [[[r | e] |] s1] eqn:Hr;
    try discriminate.
  exists r. rewrite <- (recording_run _ _ _ _ _ _ Hr).
  pose proof (silent_check L proto tool r expect_fn s1) as Hs.
  rewrite H in Hs. exact Hs.
Qed.

(** A checked call of a tool that creates nothing. *)
Lemma cleans_check_call (pend : list (pystr * value)) (call : caller W)
    (proto tool : pystr) (args : value) (expect_fn : value -> res value)
    (k : value -> prog (Recorded W)) :
  cleanup_of tool = None ->
  (forall a, cleans (owes pend) (k a)) ->
  cleans (owes pend)
    (Step (check_call L proto (recording call) tool args expect_fn) k).
Proof.
  intros Htool Hk. apply exits_step with (R := fun _ => owes pend); [|exact Hk].
  intros s a s' Hs Hr. unfold owes in *.
  destruct (check_call_run _ _ _ _ _ _ _ _ Hr) as [r ->].
  apply (owing_call pend _ {| call_tool := tool; call_args := args; call_result := r |})
    in Hs.
  now rewrite leaves_other in Hs.
Qed.

(** The checked call that was owed first. *)
Lemma cleans_delete (pend : list (pystr * value)) (call : caller W)
    (proto tool : pystr) (args : value) (expect_fn : value -> res value)
    (k : value -> prog (Recorded W)) :
  cleanup_of tool = None ->
  (forall a, cleans (owes pend) (k a)) ->
  cleans (owes ((tool, args) :: pend))
    (Step (check_call L proto (recording call) tool args expect_fn) k).
Proof.
  intros Htool Hk. apply exits_step with (R := fun _ => owes pend); [|exact Hk].
  intros s a s' Hs Hr. unfold owes in *.
  destruct (check_call_run _ _ _ _ _ _ _ _ Hr) as [r ->].
  apply owing_done; [now apply leaves_other | exact Hs].
Qed.

(** The test on the identifier of what a call created: with it, the
    deletion is owed; without it, nothing is. *)
Lemma cleans_if_id (pend : list (pystr * value)) (tool del key : pystr)
    (args r id : value) (p p' : prog (Recorded W)) :
  cleanup_of tool = Some (del, key) ->
  get_id r = Ok id ->
  cleans (owes ((del, VDict [(key, id)]) :: pend)) p ->
  cleans (owes pend) p' ->
  cleans (owes (pend_of (leaves {| call_tool := tool; call_args := args;
                                   call_result := r |}) ++ pend))
    (if Py.truthy id then p else p').
Proof.
  intros Htool Hid Hp Hp'. rewrite (leaves_created tool args r del key id Htool Hid).
  now destruct (Py.truthy id).
Qed.

Ltac cleans_tac Hk :=
  repeat first
    [ exact Hk
    | match goal with
      | |- exits _ _ (Step (lift _) _) => apply exits_lift; intros ? ?
      | |- exits _ _ (Step (check_call _ _ _ _ _ _) _) =>
          first [ apply cleans_delete; [reflexivity | intros ?]
                | apply cleans_check_call; [reflexivity | intros ?] ]
      | |- exits _ _ (Step (in_world (recording _ _ _)) _) =>
          apply cleans_call; intros ?
      | |- exits _ _ (Step _ _) =>
          apply cleans_silent; [solve [silent_tac] | intros ?]
      | H : get_id ?r = Ok ?id |- exits _ _ (if Py.truthy ?id then _ else _) =>
          eapply cleans_if_id; [reflexivity | exact H | |]
      end ].

Section Sections.

Variables (pend : list (pystr * value)) (proto : pystr) (call : caller W)
  (k : prog (Recorded W)).

Hypothesis Hk : cleans (owes pend) k.

Lemma projects_cleans : cleans (owes pend) (projects L proto (recording call) k).
Proof. unfold projects. cleans_tac Hk. Qed.

Lemma work_items_read_cleans :
  cleans (owes pend) (work_items_read L proto (recording call) k).
Proof. unfold work_items_read. cleans_tac Hk. Qed.

Lemma work_items_write_cleans :
  cleans (owes pend) (work_items_write L proto (recording call) k).
Proof. unfold work_items_write, comments. cbv zeta. cleans_tac Hk. Qed.

Lemma files_cleans : cleans (owes pend) (files L proto (recording call) k).
Proof. unfold files. cleans_tac Hk. Qed.

Lemma labels_cleans :
  cleans (owes pend) (labels (aside E) L proto (recording call) k).
Proof. unfold labels. cleans_tac Hk. Qed.

Lemma members_cleans : cleans (owes pend) (members L proto (recording call) k).
Proof. unfold members. cleans_tac Hk. Qed.

Lemma sprints_cleans : cleans (owes pend) (sprints L proto (recording call) k).
Proof. unfold sprints. cleans_tac Hk. Qed.

Lemma proposals_cleans : cleans (owes pend) (proposals L proto (recording call) k).
Proof. unfold proposals. cleans_tac Hk. Qed.

Lemma search_cleans : cleans (owes pend) (search L proto (recording call) k).
Proof. unfold search. cleans_tac Hk. Qed.

End Sections.

Lemma for_body_cleans (proto : pystr) (call : caller W) (k : prog (Recorded W)) :
  cleans (owes []) k ->
  cleans (owes []) (for_body (aside E) L proto (recording call) k).
Proof.
  intros Hk. unfold for_body.
  apply cleans_silent; [solve [silent_tac] | intros _].
  apply projects_cleans, work_items_read_cleans, work_items_write_cleans,
    files_cleans, labels_cleans, members_cleans, sprints_cleans,
    proposals_cleans, search_cleans, Hk.
Qed.

Lemma summary_cleans : cleans (owes []) (@summary (Recorded W)).
Proof.
  assert (Hend : forall code, cleans (owes []) (Exit code)).
  { intros code. apply exits_exit. auto. }
  unfold summary. cbv zeta.
  do 9 (apply cleans_silent; [solve [silent_tac] | intros ?]).
  match goal with |- exits _ _ (match ?x with _ => _ end) => destruct x end;
    repeat (apply cleans_silent; [solve [silent_tac] | intros ?]); apply Hend.
Qed.

Lemma rounds_cleans (callers : list (pystr * caller W)) :
  cleans (owes []) (rounds (aside E) L (recorded callers)).
Proof.
  unfold rounds, recorded. induction callers as [|[proto call] callers IH].
  - apply summary_cleans.
  - cbn [map fold_right fst snd]. now apply for_body_cleans.
Qed.

End Cleanup.

(** ** The record does not change the run *)

Section Agreement.

Context {W : Type} (E : Env W) (L : PyLib).

Lemma agree_ret {A} (a : A) : agree (@ret (St W) A a) (ret a).
Proof. intros s. now split. Qed.

Lemma agree_lift {A} (r : res A) : agree (@lift (St W) A r) (lift r).
Proof. intros s. now split. Qed.

Lemma agree_print (line : pystr) : agree (@print W line) (print line).
Proof. intros s. now split. Qed.

Lemma agree_read : agree (read_globals W) (read_globals (Recorded W)).
Proof. intros s. now split. Qed.

Lemma agree_skip (n : Z) : agree (@skip W n) (skip n).
Proof. intros s. now split. Qed.

Lemma agree_bind {A B} (m : M (St W) A) (m' : M (St (Recorded W)) A)
    (f : A -> M (St W) B) (f' : A -> M (St (Recorded W)) B) :
  agree m m' -> (forall a, agree (f a) (f' a)) -> agree (bind m f) (bind m' f').
Proof.
  intros Hm Hf s. unfold bind. destruct (Hm s) as [H1 H2].
  destruct (m' s) as [r' s1']. destruct (m (plain s)) as [r s1].
  cbn [fst snd] in *. subst r' s1.
  destruct r as [[a | e] |]; cbn [fst snd]; try now split.
  apply Hf.
Qed.

Lemma agree_check (proto tool : pystr) (result : value)
    (expect_fn : value -> res value) :
  agree (@check W L proto tool result expect_fn)
    (check L proto tool result expect_fn).
Proof.
  intros s. unfold check, try_, bind, lift, modify_globals, print, ret.
  destruct (expect_fn result) as [ok | e]; cbn -[firstn Str.u app];
    [destruct (Py.truthy ok); cbn -[firstn Str.u app]|]; now split.
Qed.

Lemma agree_call (call : caller W) (tool : pystr) (args : value) :
  agree (in_world (call tool args)) (in_world (recording call tool args)).
Proof.
  intros s. unfold in_world, recording, plain. cbn [world].
  now destruct (call tool args (fst (world s))).
Qed.

Lemma agree_time : agree (in_world (op (time_time E)))
                     (in_world (op (time_time (aside E)))).
Proof.
  intros s. unfold in_world, op, plain. cbn [time_time aside world].
  unfold aside_op. now destruct (time_time E (fst (world s))).
Qed.

Lemma agree_print_each (lines : list pystr) :
  agree (@print_each W lines) (print_each lines).
Proof.
  induction lines as [|line lines IH]; [apply agree_ret|].
  cbn [print_each fold_right]. apply agree_bind; [apply agree_print|].
  intros _. exact IH.
Qed.

Lemma agree_globals {A} (f : Globals -> M (St W) A)
    (f' : Globals -> M (St (Recorded W)) A) :
  (forall g, agree (f g) (f' g)) ->
  agree (bind (read_globals W) f) (bind (read_globals (Recorded W)) f').
Proof. intros H. apply agree_bind; [apply agree_read | exact H]. Qed.

(** A run with the record is the run without it, statement by
    statement. *)
Lemma alike_exec (p : prog W) (p' : prog (Recorded W)) :
  alike p p' ->
  forall n s,
    fst (exec n p' s) = fst (exec n p (plain s))
    /\ plain (snd (exec n p' s)) = snd (exec n p (plain s)).
Proof.
  induction 1 as [code | A m m' k k' Hm _ IH]; intros n s.
  - destruct n; now split.
  - destruct n as [|n]; [now split|]. cbn [exec]. destruct (Hm s) as [H1 H2].
    destruct (m' s) as [r' s1']. destruct (m (plain s)) as [r s1].
    cbn [fst snd] in *. subst r' s1.
    destruct r as [[a | e] |]; cbn [fst snd]; try now split.
    apply IH.
Qed.

Ltac agree_tac :=
  first
    [ apply agree_check | apply agree_skip | apply agree_ret | apply agree_lift
    | apply agree_print | apply agree_read | apply agree_call | apply agree_time
    | apply agree_print_each
    | apply agree_bind; [agree_tac | intros ?; agree_tac] ].

Ltac alike_tac Hk :=
  repeat first
    [ exact Hk
    | match goal with
      | |- alike (Step _ _) (Step _ _) =>
          apply alike_step; [solve [agree_tac] | intros ?]
      | |- alike (if ?b then _ else _) _ => destruct b
      end ].

Lemma for_body_alike (proto : pystr) (call : caller W) (k : prog W)
    (k' : prog (Recorded W)) :
  alike k k' ->
  alike (for_body E L proto call k)
    (for_body (aside E) L proto (recording call) k').
Proof.
  intros Hk.
  unfold for_body, projects, work_items_read, work_items_write, comments, files,
    labels, members, sprints, proposals, search, check_call.
  cbv zeta. alike_tac Hk.
Qed.

Lemma summary_alike : alike (@summary W) (@summary (Recorded W)).
Proof.
  unfold summary. cbv zeta.
  do 9 (apply alike_step; [solve [agree_tac] | intros ?]).
  match goal with |- alike (match ?x with _ => _ end) _ => destruct x end;
    repeat (apply alike_step; [solve [agree_tac] | intros ?]); apply alike_exit.
Qed.

Lemma rounds_alike (callers : list (pystr * caller W)) :
  alike (rounds E L callers) (rounds (aside E) L (recorded callers)).
Proof.
  unfold rounds, recorded. induction callers as [|[proto call] callers IH].
  - apply summary_alike.
  - cbn [map fold_right fst snd]. now apply for_body_alike.
Qed.

End Agreement.

Lemma main_rounds (W : Type) (E : Env W) (L : PyLib) (fuel : nat) :
  main E L fuel
  = Step (print (times (u "=") 60)) (fun _ =>
    Step (print (u "  OpenPR MCP 完整回归测试 (34工具 × 3协议)")) (fun _ =>
    Step (bind (in_world (op (time_strftime E (u "%Y-%m-%d %H:%M:%S"))))
            (fun stamp => print (u "  " ++ stamp))) (fun _ =>
    Step (print (times (u "=") 60)) (fun _ =>
    rounds E L (CALLERS E L fuel))))).
Proof. reflexivity. Qed.

(** X13: take a run of the loop and the summary, over any table of
    adapters, that reaches [sys.exit], and write down each call as its
    adapter returns.  The run is the same with the record as without.
    In the record, each call of [work_items.create], [comments.create],
    [labels.create] or [sprints.create] whose result has an identifier
    that [get_id] finds and that counts as true is followed by the call
    of the deleting tool with that identifier. *)
Theorem created_is_deleted (W : Type) (E : Env W) (L : PyLib)
    (callers : list (pystr * caller W)) (n : nat) (s : St W) (code : Z) :
  fst (exec n (rounds E L callers) s) = Exited code ->
  let run := exec n (rounds (aside E) L (recorded callers)) (with_record s []) in
  fst run = Exited code
  /\ plain (snd run) = snd (exec n (rounds E L callers) s)
  /\ forall pre c post del key id,
       snd (world (snd run)) = pre ++ c :: post ->
       cleanup_of (call_tool c) = Some (del, key) ->
       get_id (call_result c) = Ok id ->
       Py.truthy id = true ->
       exists c',
         In c' post /\ call_tool c' = del /\ call_args c' = VDict [(key, id)].
Proof.
  intros Hrun run.
  assert (Hplain : plain (with_record s []) = s) by now destruct s.
  destruct (alike_exec _ _ (rounds_alike E L callers) n (with_record s []))
    as [Hfst Hsnd].
  rewrite Hplain in Hfst, Hsnd. fold run in Hfst, Hsnd.
  split; [congruence|]. split; [exact Hsnd|].
  intros pre c post del key id Hlog Htool Hid Htrue.
  assert (H0 : owes [] (with_record s [])).
  { intros [|? ?] ? ? ? K; discriminate. }
  assert (Hexit : exec n (rounds (aside E) L (recorded callers)) (with_record s [])
                  = (Exited code, snd run)).
  { fold run. rewrite Hrun in Hfst. clearbody run. destruct run as [st x].
    cbn [fst snd] in *. now subst st. }
  pose proof (rounds_cleans E L callers n _ code _ H0 Hexit) as Hend.
  assert (Hc : leaves c = Some (del, VDict [(key, id)])).
  { unfold leaves. now rewrite Htool, Hid, Htrue. }
  destruct (Hend pre c post _ Hlog Hc) as [Hin | []].
  apply in_map_iff in Hin as (c' & Hc' & Hin).
  exists c'. unfold asked in Hc'. injection Hc' as <- <-. auto.
Qed.

Lemma created_is_deleted_witness :
  exists c',
    In c' (skipn 7 (snd (world (snd recorded_run))))
    /\ call_tool c' = u "work_items.delete"
    /\ call_args c' = VDict [(u "work_item_id", VStr (u "7"))].
Proof.
  apply (proj2 (proj2 (created_is_deleted Sim.World Sim.env Sim.lib
                         (CALLERS Sim.env Sim.lib 4) 200 (start all_well) 0 eq_refl))
           (firstn 6 (snd (world (snd recorded_run))))
           (nth 6 (snd (world (snd recorded_run)))
              {| call_tool := []; call_args := VNone; call_result := VNone |})
           (skipn 7 (snd (world (snd recorded_run))))
           (u "work_items.delete") (u "work_item_id") (VStr (u "7")));
    vm_compute; reflexivity.
Defined.

(** ** The run reaches [sys.exit] *)



Section Returns.

Context {W : Type} (E : Env W) (L : PyLib).





Lemma returns_op {S A} (f : S -> A * S) : returns (op f).
Proof. intros s. unfold op. destruct (f s) as [a s']. now exists a. Qed.






Hypothesis clock_finite : forall w, exists z, py_int (fst (time_time E w)) = Ok z.


Variable call : caller W.
Hypothesis call_returns :
  forall tool args w, exists v, fst (call tool args w) = Some (Ok v).





End Returns.




(** ** A message that does not parse *)

Section Dropped.

Context {W : Type} (E : Env W) (L : PyLib).


End Dropped.



(** ** The normalizer on everything else *)

(** X16: [extract] returns its argument as it is when that is not a
    mapping, or is a mapping with no "result", or with a "result" that is
    a mapping whose "content" is missing, or counts as false, or is a
    list whose first item is a mapping without "text". *)
Theorem extract_unchanged (L : PyLib) (resp : value) :
  (Py.isinstance_dict resp = false
   \/ exists d,
        resp = VDict d
        /\ (Py.lookup (u "result") d = None
            \/ exists rd,
                 Py.lookup (u "result") d = Some (VDict rd)
                 /\ (Py.lookup (u "content") rd = None
                     \/ (exists c, Py.lookup (u "content") rd = Some c
                                   /\ Py.truthy c = false)
                     \/ (exists item rest,
                            Py.lookup (u "content") rd
                            = Some (VList (VDict item :: rest))
                            /\ Py.lookup (u "text") item = None)))) ->
  extract L resp = Ok resp.
Proof.
  intros [H | (d & -> & H)]; [now apply extract_not_dict|].
  unfold extract, Py.get. simpl Py.isinstance_dict. cbv iota.
  destruct H as [-> | (rd & -> & H)]; [reflexivity|].
  destruct H as [Hc | [(c & Hc & Hf) | (item & rest & Hc & Ht)]];
    simpl; rewrite Hc; simpl.
  - reflexivity.
  - now rewrite Hf.
  - now rewrite Ht.
Qed.

Lemma extract_unchanged_witness :
  extract Sim.lib (VDict [(u "code", VInt 0); (u "data", VDict [])])
  = Ok (VDict [(u "code", VInt 0); (u "data", VDict [])]).
Proof.
  apply (extract_unchanged Sim.lib (VDict [(u "code", VInt 0); (u "data", VDict [])])).
  right. exists [(u "code", VInt 0); (u "data", VDict [])].
  split; [reflexivity|]. left. reflexivity.
Defined.

(** ** The transcript of a run *)

Section Transcript.

Context {W : Type} (E : Env W) (L : PyLib).

Lemma reported_print (line : pystr) : keeps (@reported W) (print line).
Proof.
  intros s H. unfold reported in *. cbn [print snd globals stdout].
  now apply incl_appl.
Qed.

Lemma reported_read : keeps (@reported W) (read_globals W).
Proof. intros s H. exact H. Qed.

Lemma reported_skip (n : Z) : keeps (@reported W) (skip n).
Proof. intros s H. exact H. Qed.

Lemma reported_in_world {A} (m : M W A) : keeps (@reported W) (in_world m).
Proof. intros s H. unfold in_world. now destruct (m (world s)). Qed.

(** A failed [check] prints the line it appends to [ERRORS]. *)
Lemma reported_check (proto tool : pystr) (result : value)
    (expect_fn : value -> res value) :
  keeps (@reported W) (check L proto tool result expect_fn).
Proof.
  intros s H. unfold reported in *.
  unfold check, try_, bind, lift, modify_globals, print, ret.
  destruct (expect_fn result) as [ok | e]; cbn -[firstn Str.u app];
    [destruct (Py.truthy ok); cbn -[firstn Str.u app]|];
    try (now apply incl_appl);
    (apply incl_app; [now apply incl_appl | apply incl_appr, incl_refl]).
Qed.

Lemma print_each_run (lines : list pystr) (s : St W) :
  print_each lines s
  = (Some (Ok tt),
     {| globals := globals s; stdout := stdout s ++ lines; world := world s |}).
Proof.
  revert s. induction lines as [|line lines IH]; intros s.
  - cbn. rewrite app_nil_r. now destruct s.
  - cbn [print_each fold_right]. unfold bind at 1. cbn [print].
    change (fold_right (fun e m => bind (print e) (fun _ => m)) (ret tt) lines)
      with (@print_each W lines).
    rewrite IH. cbn [globals stdout world]. now rewrite <- app_assoc.
Qed.

(** The summary prints its lines and leaves with the tallies as they
    were. *)
Lemma summary_run (n : nat) (s s' : St W) (code : Z) :
  exec n (@summary W) s = (Exited code, s') ->
  s' = {| globals := globals s;
          stdout := stdout s ++ summary_lines (globals s);
          world := world s |}.
Proof.
  unfold summary, summary_lines. cbv zeta. intros H.
  do 9 (destruct n as [|n]; [discriminate|]; cbn [exec] in H;
        unfold bind, read_globals, print, ret in H;
        cbn [fst snd globals stdout world] in H).
  destruct (ERRORS (globals s)) as [|e errors] eqn:He.
  - do 2 (destruct n as [|n]; [discriminate|]; cbn [exec] in H;
          unfold bind, read_globals, print, ret in H;
          cbn [fst snd globals stdout world] in H).
    assert (K : forall c (x : St W), exec n (Exit c) x = (Exited c, x))
      by (intros; now destruct n).
    rewrite K in H. injection H as _ <-. f_equal.
    repeat rewrite <- app_assoc. reflexivity.
  - destruct n as [|n]; [discriminate|]. cbn [exec] in H.
    cbn [fst snd globals stdout world] in H.
    destruct n as [|n]; [discriminate|]. cbn [exec] in H.
    rewrite print_each_run in H.
    cbn [fst snd globals stdout world] in H. rewrite He in H.
    do 2 (destruct n as [|n]; [discriminate|]; cbn [exec] in H;
          unfold bind, read_globals, print, ret in H;
          cbn [fst snd globals stdout world] in H).
    assert (K : forall c (x : St W), exec n (Exit c) x = (Exited c, x))
      by (intros; now destruct n).
    rewrite K in H. injection H as _ <-. f_equal.
    repeat rewrite <- app_assoc. reflexivity.
Qed.

Abbreviation reports :=
  (exits (fun s' : St W =>
            exists before,
              stdout s' = before ++ summary_lines (globals s')
              /\ incl (ERRORS (globals s')) before)
     (@reported W)).

Lemma reports_step {A} (m : M (St W) A) (k : A -> prog W) :
  keeps (@reported W) m -> (forall a, reports (k a)) -> reports (Step m k).
Proof.
  intros Hm Hk. apply exits_step with (R := fun _ => @reported W); [|exact Hk].
  intros s a s' Hs Hr. specialize (Hm s Hs). now rewrite Hr in Hm.
Qed.

Lemma summary_reports : reports (@summary W).
Proof.
  intros n s code s' Hs Hrun. rewrite (summary_run n s s' code Hrun).
  cbn [globals stdout]. now exists (stdout s).
Qed.

Ltac reported_tac :=
  first
    [ apply reported_check | apply reported_skip | apply reported_print
    | apply reported_read | apply reported_in_world
    | apply keeps_ret | apply keeps_lift
    | apply keeps_bind; [reported_tac | intros ?; reported_tac] ].

Ltac reports_tac Hk :=
  repeat first
    [ exact Hk
    | match goal with
      | |- exits _ _ (Step _ _) =>
          apply reports_step; [solve [reported_tac] | intros ?]
      | |- exits _ _ (if ?b then _ else _) => destruct b
      end ].

Lemma for_body_reports (proto : pystr) (call : caller W) (k : prog W) :
  reports k -> reports (for_body E L proto call k).
Proof.
  intros Hk.
  unfold for_body, projects, work_items_read, work_items_write, comments, files,
    labels, members, sprints, proposals, search, check_call.
  cbv zeta. reports_tac Hk.
Qed.

Lemma main_reports (fuel : nat) : reports (main E L fuel).
Proof.
  unfold main, CALLERS. cbn [fold_right fst snd].
  do 4 (apply reports_step; [solve [reported_tac] | intros ?]).
  do 3 apply for_body_reports. apply summary_reports.
Qed.

End Transcript.

(** X17: in a run that reaches [sys.exit], the last lines printed are
    the summary: the three tallies and the pass rate as they stand at the
    exit, then, when there are failures, the lines of [ERRORS] in their
    order, then the closing rule.  Each of those lines of [ERRORS] had
    been printed before, when its check failed. *)
Theorem summary_reports_the_tallies (W : Type) (E : Env W) (L : PyLib)
    (fuel n : nat) (w : W) (code : Z) (s' : St W) :
  exec n (main E L fuel) (start w) = (Exited code, s') ->
  let g := globals s' in
  exists before,
    stdout s'
    = before
        ++ [ nl ++ times (u "=") 60;
             u "  最终测试结果";
             times (u "=") 60;
             u "  ✅ 通过: " ++ Str.of_Z (PASS g);
             u "  ❌ 失败: " ++ Str.of_Z (FAIL g);
             u "  ⏭️  跳过: " ++ Str.of_Z (SKIP g);
             u "  📊 通过率: " ++ Str.of_Z (pass_rate g) ++ u "%" ]
        ++ match ERRORS g with
           | [] => []
           | _ :: _ => (nl ++ u "  失败详情:") :: ERRORS g
           end
        ++ [times (u "=") 60]
    /\ forall line, In line (ERRORS g) -> In line before.
Proof.
  intros Hrun. cbv zeta.
  assert (Hstart : reported (start w)) by (intros x []).
  exact (main_reports E L fuel n (start w) code s' Hstart Hrun).
Qed.

Lemma summary_reports_the_tallies_witness :
  exists before,
    stdout (snd (exec 200 (main Sim.env Sim.lib 4) (start refusing)))
    = before
        ++ summary_lines
             (globals (snd (exec 200 (main Sim.env Sim.lib 4) (start refusing))))
    /\ forall line,
         In line
           (ERRORS (globals (snd (exec 200 (main Sim.env Sim.lib 4) (start refusing))))) ->
         In line before.
Proof.
  apply (summary_reports_the_tallies Sim.World Sim.env Sim.lib 4 200 refusing 1
           (snd (exec 200 (main Sim.env Sim.lib 4) (start refusing)))).
  vm_compute. reflexivity.
Defined.

(** ** The listener and the stop flag *)

Section ListenerStops.

Context {W : Type} (E : Env W).

Lemma listen_finished (n : nat) (c : Session) (w : W) :
  t c = Finished -> listen E n (c, w) = (c, w).
Proof.
  intros Ht. induction n as [|n IH]; [reflexivity|].
  cbn [listen]. unfold listen_step. now rewrite Ht.
Qed.

Lemma listen_step_stopped (c : Session) (w : W) :
  stop c = true ->
  match t c with
  | NotStarted => True
  | Starting =>
      match t (fst (listen_step E (c, w))) with
      | Reading _ | Finished => True
      | _ => False
      end
  | Reading _ | Finished => t (fst (listen_step E (c, w))) = Finished
  end.
Proof.
  intros Hstop. unfold listen_step. destruct (t c) eqn:Ht; auto.
  - now destruct (requests_get E (MCP_HTTP ++ u "/sse") w) as [[? | ?] w'].
  - destruct (iter_lines E w) as [[item|] w']; [|reflexivity]. now rewrite Hstop.
Qed.

End ListenerStops.

(** X18: once [stop] is set, a listener that has been started ends
    within two of its steps, whatever the stream sends: it opens the
    stream if it has not yet, and leaves its loop at the next item, or
    when the stream ends or breaks.  It stays ended. *)
Theorem listener_honours_stop (W : Type) (E : Env W) (n : nat) (c : Session)
    (w : W) :
  stop c = true ->
  t c <> NotStarted ->
  t (fst (listen E (2 + n) (c, w))) = Finished.
Proof.
  intros Hstop Hstarted.
  assert (Hend : forall m s, t (fst s) = Finished -> t (fst (listen E m s)) = Finished).
  { intros m [c0 w0] H. now rewrite listen_finished. }
  cbn [Nat.add listen]. apply Hend.
  pose proof (listen_step_stopped E c w Hstop) as H1.
  destruct (listen_step E (c, w)) as [c1 w1] eqn:Hs1. cbn [fst] in H1.
  assert (Hstop1 : stop c1 = true).
  { pose proof (listen_step_stop E (c, w)) as K. rewrite Hs1 in K. cbn [fst] in K.
    congruence. }
  pose proof (listen_step_stopped E c1 w1 Hstop1) as H2.
  destruct (t c) eqn:Ht; try congruence.
  - destruct (t c1) eqn:Ht1; try contradiction; exact H2.
  - rewrite H1 in H2. exact H2.
  - rewrite H1 in H2. exact H2.
Qed.

Lemma listener_honours_stop_witness :
  t (fst (listen Sim.env 2 (with_stop true (with_t Starting new_session), answered)))
  = Finished.
Proof.
  apply (listener_honours_stop Sim.World Sim.env 0
           (with_stop true (with_t Starting new_session)) answered).
  - reflexivity.
  - discriminate.
Defined.

(** ** One call for each check *)

Section CallsAndChecks.

Context {W : Type} (E : Env W) (L : PyLib) (base : Z).

Abbreviation matches := (exits (@ahead W base 0)).

(** A statement that makes no call and counts no check. *)
Lemma matches_idle {A} (d n : Z) (m : M (St (Recorded W)) A)
    (k : A -> prog (Recorded W)) :
  silent m -> adds 0 n m ->
  (forall a, matches (ahead base d) (k a)) ->
  matches (ahead base d) (Step m k).
Proof.
  intros Hs Ha Hk. apply exits_step with (R := fun _ => ahead base d); [|exact Hk].
  intros s a s' H Hr. unfold ahead in *.
  specialize (Hs s). specialize (Ha s a). rewrite Hr in Hs, Ha.
  cbn [fst snd] in Hs, Ha. specialize (Ha eq_refl). rewrite Hs. lia.
Qed.

(** A call whose result is checked by the next statements. *)
Lemma matches_call (call : caller W) (tool : pystr) (args : value)
    (k : value -> prog (Recorded W)) :
  (forall r, matches (ahead base 1) (k r)) ->
  matches (ahead base 0) (Step (in_world (recording call tool args)) k).
Proof.
  intros Hk. apply exits_step with (R := fun _ => ahead base 1); [|exact Hk].
  intros s r s' H Hr. unfold ahead in *.
  rewrite (recording_run _ _ _ _ _ _ Hr), length_app. cbn [List.length].
  unfold in_world, recording in Hr.
  destruct (call tool args (fst (world s))) as [x w']. injection Hr as _ <-.
  cbn [globals]. lia.
Qed.

(** The check of a result got before. *)
Lemma matches_check (proto tool : pystr) (result : value)
    (expect_fn : value -> res value) (k : value -> prog (Recorded W)) :
  (forall a, matches (ahead base 0) (k a)) ->
  matches (ahead base 1) (Step (check L proto tool result expect_fn) k).
Proof.
  intros Hk. apply exits_step with (R := fun _ => ahead base 0); [|exact Hk].
  intros s a s' H Hr. unfold ahead in *.
  pose proof (silent_check L proto tool result expect_fn s) as Hs.
  pose proof (adds_check L proto tool result expect_fn s a) as Ha.
  rewrite Hr in Hs, Ha. cbn [fst snd] in Hs, Ha. specialize (Ha eq_refl).
  rewrite Hs. lia.
Qed.

(** A call checked at once. *)
Lemma matches_check_call (call : caller W) (proto tool : pystr) (args : value)
    (expect_fn : value -> res value) (k : value -> prog (Recorded W)) :
  (forall a, matches (ahead base 0) (k a)) ->
  matches (ahead base 0)
    (Step (check_call L proto (recording call) tool args expect_fn) k).
Proof.
  intros Hk. apply exits_step with (R := fun _ => ahead base 0); [|exact Hk].
  intros s a s' H Hr. unfold ahead in *.
  destruct (check_call_run _ _ _ _ _ _ _ _ _ Hr) as [r Hlog].
  assert (Ha : adds 1 0 (check_call L proto (recording call) tool args expect_fn)).
  { unfold check_call. apply adds_bind; [apply adds_in_world|].
    intros ?. apply adds_check. }
  specialize (Ha s a). rewrite Hr in Ha. cbn [fst snd] in Ha. specialize (Ha eq_refl).
  rewrite Hlog, length_app. cbn [List.length]. lia.
Qed.

Ltac matches_tac Hk :=
  repeat first
    [ exact Hk
    | match goal with
      | |- exits _ _ (Step (check_call _ _ _ _ _ _) _) =>
          apply matches_check_call; intros ?
      | |- exits _ _ (Step (in_world (recording _ _ _)) _) =>
          apply matches_call; intros ?
      | |- exits _ _ (Step (check _ _ _ _ _) _) =>
          apply matches_check; intros ?
      | |- exits _ _ (Step _ _) =>
          eapply matches_idle; [solve [silent_tac] | solve [adds_tac] | intros ?]
      | |- exits _ _ (if ?b then _ else _) => destruct b
      end ].

Lemma for_body_matches (proto : pystr) (call : caller W)
    (k : prog (Recorded W)) :
  matches (ahead base 0) k ->
  matches (ahead base 0) (for_body (aside E) L proto (recording call) k).
Proof.
  intros Hk.
  unfold for_body, projects, work_items_read, work_items_write, comments, files,
    labels, members, sprints, proposals, search.
  cbv zeta. matches_tac Hk.
Qed.

Lemma summary_matches : matches (ahead base 0) (@summary (Recorded W)).
Proof.
  intros n s code s' Hs Hrun. rewrite (summary_run n s s' code Hrun).
  exact Hs.
Qed.

Lemma rounds_matches (callers : list (pystr * caller W)) :
  matches (ahead base 0) (rounds (aside E) L (recorded callers)).
Proof.
  unfold rounds, recorded. induction callers as [|[proto call] callers IH].
  - apply summary_matches.
  - cbn [map fold_right fst snd]. now apply for_body_matches.
Qed.

End CallsAndChecks.

(** X19: in a run of the loop and the summary that reaches [sys.exit],
    over any table of adapters, the calls the adapters returned from are
    as many as the checks counted in [PASS] and [FAIL] during the run:
    each result is checked once, and nothing is checked that was not
    called for. *)
Theorem one_call_for_each_check (W : Type) (E : Env W) (L : PyLib)
    (callers : list (pystr * caller W)) (n : nat) (s : St W) (code : Z) :
  fst (exec n (rounds E L callers) s) = Exited code ->
  let s' := snd (exec n (rounds E L callers) s) in
  let run := exec n (rounds (aside E) L (recorded callers)) (with_record s []) in
  plain (snd run) = s'
  /\ Z.of_nat (List.length (snd (world (snd run))))
     = PASS (globals s') + FAIL (globals s')
       - (PASS (globals s) + FAIL (globals s)).
Proof.
  intros Hrun s' run.
  assert (Hplain : plain (with_record s []) = s) by now destruct s.
  destruct (alike_exec _ _ (rounds_alike E L callers) n (with_record s []))
    as [Hfst Hsnd].
  rewrite Hplain in Hfst, Hsnd. fold run in Hfst, Hsnd. fold s' in Hsnd.
  split; [exact Hsnd|].
  assert (H0 : ahead (PASS (globals s) + FAIL (globals s)) 0 (with_record s [])).
  { unfold ahead. cbn. lia. }
  assert (Hexit : exec n (rounds (aside E) L (recorded callers)) (with_record s [])
                  = (Exited code, snd run)).
  { fold run. rewrite Hrun in Hfst. clearbody run. destruct run as [st x].
    cbn [fst snd] in *. now subst st. }
  pose proof (rounds_matches E L _ callers n _ code _ H0 Hexit) as Hend.
  unfold ahead in Hend. rewrite <- Hsnd. cbn [plain globals]. lia.
Qed.

Lemma one_call_for_each_check_witness :
  plain (snd recorded_run)
  = snd (exec 200 (rounds Sim.env Sim.lib (CALLERS Sim.env Sim.lib 4)) (start all_well))
  /\ Z.of_nat (List.length (snd (world (snd recorded_run))))
     = PASS (globals (snd (exec 200 (rounds Sim.env Sim.lib (CALLERS Sim.env Sim.lib 4))
                             (start all_well))))
       + FAIL (globals (snd (exec 200 (rounds Sim.env Sim.lib (CALLERS Sim.env Sim.lib 4))
                               (start all_well))))
       - (PASS (globals (start all_well)) + FAIL (globals (start all_well))).
Proof.
  apply (one_call_for_each_check Sim.World Sim.env Sim.lib (CALLERS Sim.env Sim.lib 4)
           200 (start all_well) 0).
  vm_compute. reflexivity.
Defined.
